(** * a-cursor-navigation: the [a-cursor-teleport] component

    A shallow embedding of [src/components/a-cursor-navigation.js]: the
    raycast registry ([updateRaycastObjects]), the cursor hit resolver
    ([getTeleportPositionFromCursor], [isValidNormalsAngle]), the transition
    controller ([transition], [tick], [easeInOutQuad]) and the event wiring
    of the component ([init], [play], [pause], [setupCursor], the mouse
    handlers).

    Conventions of the embedding.
    - A JavaScript number is an exact rational ([Q]); rounding, NaN and the
      infinities of binary64 are not modelled (the frame of [go-to] apart,
      where a division by zero is followed case by case). Numbers are
      compared with [Qle_bool]; equalities between computed numbers are
      stated with [==]. Where a claim is about the rounded values
      themselves, the computation is given in binary64 as well, on the
      primitive floats of the kernel (module [Binary64]).
    - three.js and the A-Frame/DOM runtime are not part of the repository.
      The three.js operations the component calls are the fields of the
      class [Three], and every theorem holds for any implementation of
      them. Two are written out: componentwise vector arithmetic, and
      [intersectObjects], which collects the hits of [raycast] on each
      object (and, when recursive, on its descendants) and sorts them by
      distance.
    - [this] is the record [State], threaded explicitly. [userData] of the
      scene objects is a store keyed by object identity, because the
      registry, the occlusion list and the scene graph alias the same
      objects. The landing returned by the resolvers aliases
      [this.tempVector3] as its normal; the model keeps that alias.
    - The host drives the component through [step]: frames, [play],
      [pause], timers and DOM events. [remove] and the debug logging are
      left out.
    - The components [pinch-teleport-02], [click-teleport-03] and [go-to]
      of the same file follow the scenes, each with a state of its own;
      [save-position-and-rotation] and [TeleportDiagnostic] are left
      out. *)

From stdpp Require Import gmap strings list.
From Stdlib Require Import QArith Lqa.
From Stdlib Require PrimFloat.

Local Open Scope Q_scope.

(** ** Numbers *)

(** [a < b] on JavaScript numbers. *)
Definition Qlt_bool (a b : Q) : bool := negb (Qle_bool b a).

(** ** Geometry values (three.js [Vector2], [Vector3], [Quaternion]) *)

Record Vector2 := vec2 { v2x : Q; v2y : Q }.
Record Vector3 := vec3 { vx : Q; vy : Q; vz : Q }.
Record Quaternion := quat { qx : Q; qy : Q; qz : Q; qw : Q }.

(** [Matrix3.elements] and [Matrix4.elements]. *)
Definition Matrix3 := list Q.
Definition Matrix4 := list Q.

(** Componentwise numeric equality of vectors. *)
Definition veq (a b : Vector3) : Prop :=
  vx a == vx b /\ vy a == vy b /\ vz a == vz b.

Infix "=v=" := veq (at level 70, no associativity).

(** [Vector3.add], [Vector3.multiplyScalar], [Vector3.lerpVectors]: plain
    componentwise arithmetic. *)
Definition add (a b : Vector3) : Vector3 :=
  vec3 (vx a + vx b) (vy a + vy b) (vz a + vz b).

Definition multiplyScalar (a : Vector3) (s : Q) : Vector3 :=
  vec3 (vx a * s) (vy a * s) (vz a * s).

Definition lerpVectors (v1 v2 : Vector3) (alpha : Q) : Vector3 :=
  vec3 (vx v1 + (vx v2 - vx v1) * alpha)
       (vy v1 + (vy v2 - vy v1) * alpha)
       (vz v1 + (vz v2 - vz v1) * alpha).

Definition identity : Quaternion := quat 0 0 0 1.

(** ** Scene graph *)

(** Identity of a three.js object: a node of the scene graph, or the
    default collision plane the component allocates for itself. *)
Inductive ObjId :=
| Oid (n : nat)
| CollisionMeshId.

#[global] Instance ObjId_eq_dec : EqDecision ObjId.
Proof. solve_decision. Defined.

#[global] Instance ObjId_countable : Countable ObjId.
Proof.
  refine (inj_countable'
            (fun i => match i with Oid n => S n | CollisionMeshId => O end)
            (fun k => match k with O => CollisionMeshId | S n => Oid n end) _).
  intros []; reflexivity.
Defined.

#[warnings="-register-all"]
Inductive Object3D := mkObject3D {
  oid : ObjId;
  isMesh : bool;
  visible : bool;
  matrixWorld : Matrix4;
  children : list Object3D
}.

(** [Object3D.traverse]: the object itself, then its descendants, in
    pre-order. The callbacks of this file never change the graph, so the
    traversal is the fold of the callback over this list. *)
Fixpoint traverse (o : Object3D) : list Object3D :=
  o :: (fix over (l : list Object3D) : list Object3D :=
          match l with
          | [] => []
          | c :: r => traverse c ++ over r
          end) (children o).

(** [obj.userData], restricted to the three keys the file reads or writes.
    A key that was never assigned reads [undefined], here [false]. *)
Record UserData := mkUserData {
  collision : bool;
  isNavmesh : bool;
  raycastExclude : bool
}.

Definition noUserData : UserData := mkUserData false false false.

Definition userDataOf (store : gmap ObjId UserData) (o : Object3D) : UserData :=
  default noUserData (store !! oid o).

(** ** Raycasting ([THREE.Raycaster]) *)

Record Raycaster := mkRaycaster { ray_origin : Vector3; ray_direction : Vector3 }.

(** An entry of the array returned by [intersectObjects]. [face_normal] is
    [intersect.face.normal], in the local frame of [object]. *)
Record Intersection := mkIntersection {
  distance : Q;
  point : Vector3;
  face_normal : Vector3;
  object : Object3D
}.

(** The part of three.js the component relies on. *)
Class Three := {
  (** [object.raycast(raycaster, intersects)]: the hits of the ray on the
      object's own geometry (none when the layers do not match). *)
  raycast : Raycaster -> Object3D -> list Intersection;
  (** The default of the [recursive] argument of [intersectObjects]. *)
  recursive_default : bool;
  (** [Raycaster.setFromCamera(ndc, camera)]. *)
  setFromCamera : Vector2 -> Raycaster;
  (** [Matrix3.getNormalMatrix(matrix4)]. *)
  getNormalMatrix : Matrix4 -> Matrix3;
  (** [Vector3.applyMatrix3(m)], [Vector3.applyNormalMatrix(m)],
      [Vector3.normalize()], [Vector3.angleTo(v)] (radians). *)
  applyMatrix3 : Vector3 -> Matrix3 -> Vector3;
  applyNormalMatrix : Vector3 -> Matrix3 -> Vector3;
  normalize : Vector3 -> Vector3;
  angleTo : Vector3 -> Vector3 -> Q;
  (** [THREE.MathUtils.RAD2DEG]. *)
  RAD2DEG : Q;
  (** [Quaternion.setFromUnitVectors(from, to)] and
      [Quaternion.slerpQuaternions(qa, qb, t)]. *)
  setFromUnitVectors : Vector3 -> Vector3 -> Quaternion;
  slerpQuaternions : Quaternion -> Quaternion -> Q -> Quaternion
}.

Section Raycasting.
Context `{!Three}.

(** three.js [intersect(object, raycaster, intersects, recursive)]. *)
Fixpoint intersectObject (rc : Raycaster) (recursive : bool) (o : Object3D)
  : list Intersection :=
  raycast rc o ++
  (if recursive
   then (fix over (l : list Object3D) : list Intersection :=
           match l with
           | [] => []
           | c :: r => intersectObject rc true c ++ over r
           end) (children o)
   else []).

(** [intersects.sort(ascSort)] with [ascSort(a, b) = a.distance -
    b.distance]; the sort is stable. *)
Fixpoint insertHit (h : Intersection) (l : list Intersection) : list Intersection :=
  match l with
  | [] => [h]
  | x :: r =>
      if Qle_bool (distance h) (distance x) then h :: x :: r
      else x :: insertHit h r
  end.

Definition ascSort (l : list Intersection) : list Intersection :=
  foldr insertHit [] l.

(** [raycaster.intersectObjects(objects, recursive)]. *)
Definition intersectObjects (rc : Raycaster) (objects : list Object3D)
    (recursive : bool) : list Intersection :=
  ascSort (flat_map (intersectObject rc recursive) objects).

End Raycasting.

(** ** Configuration, host environment and component state *)

(** [this.data]: the schema properties the navigation logic reads. *)
Record Data := mkData {
  collisionEntities : string;
  ignoreEntities : string;
  landingMaxAngle : Q;
  landingNormal : Vector3;
  transitionSpeed : Q;
  alignToSurface : bool;
  rotationSmoothing : Q
}.

(** What the host shows the component when one of its methods runs.
    [scene] is [sceneEl.object3D] as it is at that moment, with everything
    that was added to it (the teleport indicator of the component
    included) and the current [visible] flags. [querySelectorAll sel]
    lists [entity.object3D] for the entities matched by [sel], in document
    order. [a_cursor] is the element found by
    [sceneEl.querySelector('a-cursor')]: [None] when there is none, else
    [components.raycaster?.raycaster] of that element. [tunnel] tells
    whether [#tunnel] exists; [vr_requested] whether the URL has [vr=true]
    or an XR session is presenting; [canvas_size] is ([right - left],
    [bottom - top]) and [canvas_offset] is ([left], [top]) of
    [canvas.getBoundingClientRect()]. *)
Record Env := mkEnv {
  scene : Object3D;
  querySelectorAll : string -> list Object3D;
  a_cursor : option (option Raycaster);
  tunnel : bool;
  vr_requested : bool;
  document_hidden : bool;
  canvas_size : Vector2;
  canvas_offset : Vector2
}.

(** The fields of a DOM mouse or touch event that [getMouseState] reads:
    [clientX]/[clientY] when [clientX != null], else [touches[0]] when
    there is one. *)
Record PointerEvent := mkPointerEvent {
  client : option Vector2;
  touches0 : option Vector2
}.

(** A reference to a [Vector3] owned by the component. The resolvers return
    [this.tempVector3] itself as the normal of the landing. *)
Inductive Vector3Ref := TempVector3.

(** The object returned by the resolvers: [{ point, normal }]. *)
Record Landing := mkLanding {
  landing_point : Vector3;
  landing_normal : Vector3Ref
}.

(** [position], [quaternion] and [visible] of a three.js object (the camera
    rig, the teleport indicator); [shown] is its [visible] flag. *)
Record Pose := mkPose {
  position : Vector3;
  quaternion : Quaternion;
  shown : bool
}.

(** Event targets and the callbacks of the component that can be handed to
    [addEventListener]. *)
Inductive Target := SceneEl | Document | Window | CursorEl | Canvas.

Inductive Handler :=
| enterVR_h | exitVR_h | visibilityChange_h
| cursorClick_h
| hideCursor_h
| mouseMove_h | mouseDown_h | mouseUp_h.

#[global] Instance Target_eq_dec : EqDecision Target.
Proof. solve_decision. Defined.

#[global] Instance Handler_eq_dec : EqDecision Handler.
Proof. solve_decision. Defined.

Record Listener := mkListener {
  l_target : Target;
  l_type : string;
  l_handler : Handler
}.

#[global] Instance Listener_eq_dec : EqDecision Listener.
Proof. solve_decision. Defined.

(** The raycast registry. *)
Record Registry := mkRegistry {
  rayCastObjects : list Object3D;
  allSceneMeshes : option (list Object3D);
  collisionMesh : option Object3D;
  lastCollisionCount : nat;
  lastRaycastCount : nat
}.

(** The transition controller. *)
Record Transition := mkTransition {
  transitioning : bool;
  transitionProgress : Q;
  transitionCamPosStart : Vector3;
  transitionCamPosEnd : Vector3;
  transitionRotStart : Quaternion;
  transitionRotEnd : Quaternion;
  targetSurfaceNormal : Vector3
}.

(** The link to the a-cursor entity. [cursorEl] and [cursorRaycaster] tell
    whether the field holds an object; the object itself is the one the
    environment reports in [a_cursor]. *)
Record CursorLink := mkCursorLink {
  cursorEl : bool;
  cursorRaycaster : bool;
  cursorClickHandlerSet : bool;
  cursorSetupRetried : bool;
  cursorInitialized : bool
}.

(** The throttled hover cache of [tick]. *)
Record HoverCache := mkHoverCache {
  lastTeleportCheck : Q;
  cachedTeleportPos : option Landing;
  lastRaycastUpdate : option Q
}.

(** The desktop mouse adapter: the two recorded positions, and whether
    [this.cam] and [this.canvas] hold an object. *)
Record MouseState := mkMouseState {
  mousePosition : Vector2;
  mouseOriginalPosition : Vector2;
  cam : bool;
  canvas : bool
}.

Record VRState := mkVRState {
  isVR : bool;
  tunnelElement : bool;
  vrTransitionReady : bool
}.

(** What the component does to the outside: events emitted on [this.el],
    console warnings, the attributes set on the tunnel, the listeners it
    has registered and the [setTimeout] callbacks it has scheduled. Lists
    are in chronological order. *)
Record Outside := mkOutside {
  emitted : list string;
  warnings : list string;
  tunnelAnimations : list string;
  listeners : list Listener;
  pendingSetupCursor : nat
}.

Record State := mkState {
  registry : Registry;
  userData : gmap ObjId UserData;
  transitionState : Transition;
  camRig : Pose;
  teleportIndicator : Pose;
  cursorLink : CursorLink;
  hover : HoverCache;
  mouse : MouseState;
  vr : VRState;
  referenceNormal : Vector3;
  tempVector3 : Vector3;
  outside : Outside
}.

Definition set_registry (r : Registry) (st : State) : State :=
  mkState r (userData st) (transitionState st) (camRig st) (teleportIndicator st)
          (cursorLink st) (hover st) (mouse st) (vr st) (referenceNormal st)
          (tempVector3 st) (outside st).

Definition set_userData (u : gmap ObjId UserData) (st : State) : State :=
  mkState (registry st) u (transitionState st) (camRig st) (teleportIndicator st)
          (cursorLink st) (hover st) (mouse st) (vr st) (referenceNormal st)
          (tempVector3 st) (outside st).

Definition set_transitionState (t : Transition) (st : State) : State :=
  mkState (registry st) (userData st) t (camRig st) (teleportIndicator st)
          (cursorLink st) (hover st) (mouse st) (vr st) (referenceNormal st)
          (tempVector3 st) (outside st).

Definition set_camRig (p : Pose) (st : State) : State :=
  mkState (registry st) (userData st) (transitionState st) p (teleportIndicator st)
          (cursorLink st) (hover st) (mouse st) (vr st) (referenceNormal st)
          (tempVector3 st) (outside st).

Definition set_teleportIndicator (p : Pose) (st : State) : State :=
  mkState (registry st) (userData st) (transitionState st) (camRig st) p
          (cursorLink st) (hover st) (mouse st) (vr st) (referenceNormal st)
          (tempVector3 st) (outside st).

Definition set_cursorLink (c : CursorLink) (st : State) : State :=
  mkState (registry st) (userData st) (transitionState st) (camRig st)
          (teleportIndicator st) c (hover st) (mouse st) (vr st)
          (referenceNormal st) (tempVector3 st) (outside st).

Definition set_hover (h : HoverCache) (st : State) : State :=
  mkState (registry st) (userData st) (transitionState st) (camRig st)
          (teleportIndicator st) (cursorLink st) h (mouse st) (vr st)
          (referenceNormal st) (tempVector3 st) (outside st).

Definition set_mouse (m : MouseState) (st : State) : State :=
  mkState (registry st) (userData st) (transitionState st) (camRig st)
          (teleportIndicator st) (cursorLink st) (hover st) m (vr st)
          (referenceNormal st) (tempVector3 st) (outside st).

Definition set_vr (v : VRState) (st : State) : State :=
  mkState (registry st) (userData st) (transitionState st) (camRig st)
          (teleportIndicator st) (cursorLink st) (hover st) (mouse st) v
          (referenceNormal st) (tempVector3 st) (outside st).

Definition set_tempVector3 (v : Vector3) (st : State) : State :=
  mkState (registry st) (userData st) (transitionState st) (camRig st)
          (teleportIndicator st) (cursorLink st) (hover st) (mouse st) (vr st)
          (referenceNormal st) v (outside st).

Definition set_outside (o : Outside) (st : State) : State :=
  mkState (registry st) (userData st) (transitionState st) (camRig st)
          (teleportIndicator st) (cursorLink st) (hover st) (mouse st) (vr st)
          (referenceNormal st) (tempVector3 st) o.

Definition deref (st : State) (r : Vector3Ref) : Vector3 :=
  match r with TempVector3 => tempVector3 st end.

(** [this.el.emit(name)] and [console.warn(msg)]. *)
Definition emit (name : string) (st : State) : State :=
  let o := outside st in
  set_outside (mkOutside (emitted o ++ [name]) (warnings o) (tunnelAnimations o)
                         (listeners o) (pendingSetupCursor o)) st.

Definition console_warn (msg : string) (st : State) : State :=
  let o := outside st in
  set_outside (mkOutside (emitted o) (warnings o ++ [msg]) (tunnelAnimations o)
                         (listeners o) (pendingSetupCursor o)) st.

(** ** The [navmesh] and [raycast-exclude] components *)

Definition setCollision (store : gmap ObjId UserData) (obj : Object3D)
  : gmap ObjId UserData :=
  let u := userDataOf store obj in
  <[oid obj := mkUserData true (isNavmesh u) (raycastExclude u)]> store.

Definition setRaycastExclude (store : gmap ObjId UserData) (obj : Object3D)
  : gmap ObjId UserData :=
  let u := userDataOf store obj in
  <[oid obj := mkUserData (collision u) (isNavmesh u) true]> store.

(** The meshes below the given roots, in traversal order. *)
Definition meshesOf (roots : list Object3D) : list Object3D :=
  List.filter isMesh (flat_map traverse roots).

(** [navmesh.init] on an entity whose [object3D] is [el]. *)
Definition navmesh_init (el : Object3D) (store : gmap ObjId UserData)
  : gmap ObjId UserData :=
  foldl setCollision store (meshesOf [el]).

(** [raycast-exclude.init]. *)
Definition raycast_exclude_init (el : Object3D) (store : gmap ObjId UserData)
  : gmap ObjId UserData :=
  foldl setRaycastExclude store (meshesOf [el]).

(** ** The [a-cursor-teleport] component *)

Section CursorTeleport.
Context `{!Three}.
Variable data : Data.

Definition upVector : Vector3 := vec3 0 1 0.
Definition teleportCheckInterval : Q := 16.

(** *** Raycast registry *)

(** The callback of the collision loop: flag the mesh as collidable
    navmesh. *)
Definition markNavmesh (store : gmap ObjId UserData) (obj : Object3D)
  : gmap ObjId UserData :=
  let u := userDataOf store obj in
  <[oid obj := mkUserData true true (raycastExclude u)]> store.

(** [new THREE.Mesh(planeGeometry, planeMaterial)]: outside the scene
    graph, visible, identity world matrix. *)
Definition defaultCollisionMesh : Object3D :=
  mkObject3D CollisionMeshId true true
             [1;0;0;0; 0;1;0;0; 0;0;1;0; 0;0;0;1] [].

Definition lostAllWarning : string :=
  "navigation-05: CRITICAL - Lost all collision objects! VR teleportation disabled.".

Definition updateRaycastObjects (env : Env) (st : State) : State :=
  let r := registry st in
  let previousCount := length (rayCastObjects r) in
  let all :=
    List.filter
      (fun obj => isMesh obj && visible obj
                  && negb (raycastExclude (userDataOf (userData st) obj)))
      (traverse (scene env)) in
  let '(objs, store, cm, lcc) :=
    if negb (String.eqb (collisionEntities data) "")
    then
      let found := querySelectorAll env (collisionEntities data) in
      let meshes := meshesOf found in
      (meshes, foldl markNavmesh (userData st) meshes, collisionMesh r,
       length found)
    else
      match collisionMesh r with
      | Some m => ([m], userData st, Some m, lastCollisionCount r)
      | None =>
          ([defaultCollisionMesh],
           <[CollisionMeshId := mkUserData true false false]> (userData st),
           Some defaultCollisionMesh, lastCollisionCount r)
      end in
  let st1 :=
    if Nat.eqb (length objs) 0 && Nat.ltb 0 previousCount
    then console_warn lostAllWarning st else st in
  let objs' :=
    if negb (String.eqb (ignoreEntities data) "")
    then objs ++ meshesOf (querySelectorAll env (ignoreEntities data))
    else objs in
  set_registry (mkRegistry objs' (Some all) cm lcc (length objs))
               (set_userData store st1).

(** *** Hit resolver *)

Definition isValidNormalsAngle (st : State) (normal : Vector3) (obj : Object3D)
  : bool :=
  let collisionObjectNormalMatrix := getNormalMatrix (matrixWorld obj) in
  let collisionWorldNormal := applyNormalMatrix normal collisionObjectNormalMatrix in
  let angle := angleTo (referenceNormal st) collisionWorldNormal in
  Qle_bool (RAD2DEG * angle) (landingMaxAngle data).

(** [el?.components.raycaster?.raycaster] of the a-cursor element. *)
Definition raycasterOf (env : Env) : option Raycaster :=
  match a_cursor env with
  | Some (Some rc) => Some rc
  | _ => None
  end.

(** The world normal both resolvers return: it is written into
    [this.tempVector3], and the landing refers to that vector. *)
Definition landingAt (intersect : Intersection) (st : State)
  : option Landing * State :=
  let collisionObjectNormalMatrix :=
    getNormalMatrix (matrixWorld (object intersect)) in
  let worldNormal :=
    normalize (applyMatrix3 (face_normal intersect) collisionObjectNormalMatrix) in
  (Some (mkLanding (point intersect) TempVector3),
   set_tempVector3 worldNormal st).

(** [getTeleportPositionFromCursor] from the registry check on, with the
    THREE raycaster [rc] of the cursor. *)
Definition resolveWith (rc : Raycaster) (st : State) : option Landing * State :=
  if Nat.eqb (length (rayCastObjects (registry st))) 0 then (None, st)
  else
    let allIntersects :=
      intersectObjects rc (default [] (allSceneMeshes (registry st))) true in
    match allIntersects with
    | [] => (None, st)
    | firstHit :: _ =>
        if negb (isNavmesh (userDataOf (userData st) (object firstHit)))
        then (None, st)
        else
          let intersect := firstHit in
          if negb (isValidNormalsAngle st (face_normal intersect) (object intersect))
             || negb (collision (userDataOf (userData st) (object intersect)))
          then (None, st)
          else landingAt intersect st
    end.

Definition getTeleportPositionFromCursor (env : Env) (st : State)
  : option Landing * State :=
  let link := cursorLink st in
  match (if cursorRaycaster link then raycasterOf env else None) with
  | Some rc => resolveWith rc st
  | None =>
      match (if cursorEl link then raycasterOf env else None) with
      | Some rc =>
          resolveWith rc
            (set_cursorLink
               (mkCursorLink (cursorEl link) true (cursorClickHandlerSet link)
                             (cursorSetupRetried link) (cursorInitialized link))
               st)
      | None => (None, st)
      end
  end.

Definition getTeleportPositionVR := getTeleportPositionFromCursor.

(** [getTeleportPosition()(x, y)], the screen-space resolver. *)
Definition getTeleportPosition (env : Env) (x y : Q) (st : State)
  : option Landing * State :=
  if Nat.eqb (length (rayCastObjects (registry st))) 0
     || negb (cam (mouse st)) || negb (canvas (mouse st))
  then (None, st)
  else
    let ndcMouse :=
      vec2 ((x / v2x (canvas_size env)) * 2 - 1)
           (- (y / v2y (canvas_size env)) * 2 + 1) in
    let rc := setFromCamera ndcMouse in
    let intersects :=
      intersectObjects rc (rayCastObjects (registry st)) recursive_default in
    match intersects with
    | [] => (None, st)
    | intersect :: _ =>
        if negb (isValidNormalsAngle st (face_normal intersect) (object intersect))
           || negb (collision (userDataOf (userData st) (object intersect)))
        then (None, st)
        else landingAt intersect st
    end.

(** *** Transition controller *)

(** The first argument of [transition]: a landing [{ point, normal }],
    or a bare position vector. *)
Inductive PositionData :=
| PosLanding (l : Landing)
| PosVector (v : Vector3).

Definition logTunnel (what : string) (st : State) : State :=
  let o := outside st in
  set_outside (mkOutside (emitted o) (warnings o) (tunnelAnimations o ++ [what])
                         (listeners o) (pendingSetupCursor o)) st.

Definition triggerTunnelAnimation (st : State) : State :=
  if tunnelElement (vr st) then logTunnel "animation__tunnel_down" st else st.

Definition triggerTunnelUpAnimation (st : State) : State :=
  if tunnelElement (vr st) then logTunnel "animation__tunnel_up" st else st.

Definition transition (positionData : PositionData)
    (targetQuaternion : option Quaternion) (st : State) : State :=
  let '(posEnd, normal, hasNormal) :=
    match positionData with
    | PosLanding l => (landing_point l, deref st (landing_normal l), true)
    | PosVector v => (v, vec3 0 1 0, false)
    end in
  let rig := camRig st in
  let rotEnd :=
    match targetQuaternion with
    | Some q => q
    | None =>
        if alignToSurface data && hasNormal
        then setFromUnitVectors upVector normal
        else quaternion rig
    end in
  let st1 :=
    emit "navigation-start"
      (set_transitionState
         (mkTransition true 0 (position rig) posEnd (quaternion rig) rotEnd normal)
         st) in
  if isVR (vr st1) && tunnelElement (vr st1)
  then triggerTunnelAnimation st1 else st1.

Definition easeInOutQuad (t : Q) : Q :=
  if Qlt_bool t (1 # 2) then 2 * t * t else (4 - 2 * t) * t - 1.

(** [Math.min(a, b)]. *)
Definition Math_min (a b : Q) : Q := if Qle_bool a b then a else b.

(** The click confirmation shared, line for line, by the cursor click
    handler and [mouseUp]: move the indicator, derive the target
    orientation, start the transition. *)
Definition confirmTeleport (teleportData : Landing) (st : State) : State :=
  let ind := teleportIndicator st in
  let st1 :=
    set_teleportIndicator
      (mkPose (landing_point teleportData) (quaternion ind) (shown ind)) st in
  let targetQuaternion :=
    if alignToSurface data
    then Some (setFromUnitVectors upVector (deref st1 (landing_normal teleportData)))
    else None in
  transition (PosLanding teleportData) targetQuaternion st1.

(** *** Cursor wiring *)

Definition addEventListener (l : Listener) (ls : list Listener) : list Listener :=
  if bool_decide (l ∈ ls) then ls else ls ++ [l].

Definition removeEventListener (l : Listener) (ls : list Listener) : list Listener :=
  List.filter (fun x => negb (bool_decide (x = l))) ls.

Definition set_listeners (ls : list Listener) (st : State) : State :=
  let o := outside st in
  set_outside (mkOutside (emitted o) (warnings o) (tunnelAnimations o) ls
                         (pendingSetupCursor o)) st.

Definition set_pending (n : nat) (st : State) : State :=
  let o := outside st in
  set_outside (mkOutside (emitted o) (warnings o) (tunnelAnimations o)
                         (listeners o) n) st.

Definition clickListener : Listener := mkListener CursorEl "click" cursorClick_h.
Definition keydownListener : Listener := mkListener Window "keydown" hideCursor_h.

Definition setupCursor (env : Env) (st : State) : State :=
  let link := cursorLink st in
  let el := bool_decide (is_Some (a_cursor env)) in
  match raycasterOf env with
  | Some _ =>
      let ls := listeners (outside st) in
      let ls1 :=
        if cursorClickHandlerSet link then removeEventListener clickListener ls
        else ls in
      set_listeners (addEventListener clickListener ls1)
        (set_cursorLink (mkCursorLink el true true (cursorSetupRetried link) true) st)
  | None =>
      if negb (cursorSetupRetried link)
      then
        set_pending (S (pendingSetupCursor (outside st)))
          (set_cursorLink
             (mkCursorLink el (cursorRaycaster link) (cursorClickHandlerSet link)
                           true (cursorInitialized link)) st)
      else
        set_cursorLink
          (mkCursorLink el (cursorRaycaster link) (cursorClickHandlerSet link)
                        (cursorSetupRetried link) (cursorInitialized link)) st
  end.

Definition setupVRCursor := setupCursor.

Definition initializeTunnelForVR (env : Env) (st : State) : State :=
  let v := vr st in
  let te := if tunnelElement v then true else tunnel env in
  let st1 := set_vr (mkVRState (isVR v) te true) st in
  if te then logTunnel "reset" st1 else st1.

Definition hideCursor (st : State) : State :=
  let ind := teleportIndicator st in
  set_teleportIndicator (mkPose (position ind) (quaternion ind) false) st.

(** *** Event handlers *)

Definition stopTransition (resetProgress : bool) (st : State) : State :=
  let t := transitionState st in
  set_transitionState
    (mkTransition false (if resetProgress then 0 else transitionProgress t)
                  (transitionCamPosStart t) (transitionCamPosEnd t)
                  (transitionRotStart t) (transitionRotEnd t)
                  (targetSurfaceNormal t)) st.

(** The ['enter-vr'] listener of [setupVRSessionListeners]. *)
Definition onEnterVR (env : Env) (st : State) : State :=
  let v := vr st in
  let st1 := set_vr (mkVRState true (tunnelElement v) (vrTransitionReady v)) st in
  let st2 := stopTransition true st1 in
  let st3 := setupVRCursor env (initializeTunnelForVR env st2) in
  let v3 := vr st3 in
  set_vr (mkVRState (isVR v3) (tunnelElement v3) true) st3.

Definition onExitVR (st : State) : State :=
  let v := vr st in
  set_vr (mkVRState false (tunnelElement v) (vrTransitionReady v)) st.

(** The ['visibilitychange'] listener; [this.vrCursor] and
    [this.vrRaycaster] are never assigned an object. *)
Definition onVisibilityChange (env : Env) (st : State) : State :=
  if negb (document_hidden env) && isVR (vr st)
  then setupVRCursor env st else st.

(** [this.cursorClickHandler]. *)
Definition cursorClickHandler (env : Env) (st : State) : State :=
  let '(teleportData, st1) := getTeleportPositionFromCursor env st in
  match teleportData with
  | Some l => confirmTeleport l st1
  | None => st1
  end.

Definition set_mousePosition (p : Vector2) (st : State) : State :=
  let m := mouse st in
  set_mouse (mkMouseState p (mouseOriginalPosition m) (cam m) (canvas m)) st.

(** [getMouseState()(event)]: writes [this.mousePosition] and returns
    it, or returns [undefined]. *)
Definition getMouseState (event : PointerEvent) (env : Env) (st : State)
  : option Vector2 * State :=
  let rect := canvas_offset env in
  let at_ (c : Vector2) :=
    let p := vec2 (v2x c - v2x rect) (v2y c - v2y rect) in
    (Some p, set_mousePosition p st) in
  match client event with
  | Some c => at_ c
  | None =>
      match touches0 event with
      | Some c => at_ c
      | None => (None, st)
      end
  end.

Definition mouseMove (event : PointerEvent) (env : Env) (st : State) : State :=
  let '(mouseState, st1) := getMouseState event env st in
  match mouseState with
  | Some p => set_mousePosition p st1
  | None => st1
  end.

Definition mouseDown (event : PointerEvent) (env : Env) (st : State) : State :=
  let st1 := updateRaycastObjects env st in
  let '(mouseState, st2) := getMouseState event env st1 in
  match mouseState with
  | Some p =>
      let m := mouse st2 in
      set_mouse (mkMouseState (mousePosition m) p (cam m) (canvas m)) st2
  | None => st2
  end.

Definition mouseUp (event : PointerEvent) (env : Env) (st : State) : State :=
  let m := mouse st in
  if Qeq_bool (v2x (mousePosition m)) (v2x (mouseOriginalPosition m))
     && Qeq_bool (v2y (mousePosition m)) (v2y (mouseOriginalPosition m))
  then
    let '(teleportData, st1) :=
      getTeleportPosition env (v2x (mousePosition m)) (v2y (mousePosition m)) st in
    match teleportData with
    | Some l => confirmTeleport l st1
    | None => st1
    end
  else st.

(** *** Lifecycle: [init], [play], [pause], [tick] *)

(** The state once [init] has run. [store] is [userData] of the scene
    objects and [rig] the pose of the camera rig at that time;
    [camera] tells whether [initializeCamera] found a camera. *)
Definition init (env : Env) (store : gmap ObjId UserData) (rig : Pose)
    (camera : bool) : State :=
  let zero := vec3 0 0 0 in
  let st0 :=
    mkState
      (mkRegistry [] None None 0 0)
      store
      (mkTransition false 0 zero zero identity identity (vec3 0 1 0))
      rig
      (mkPose zero identity false)
      (mkCursorLink false false false false false)
      (mkHoverCache 0 None None)
      (mkMouseState (vec2 0 0) (vec2 0 0) camera true)
      (mkVRState (vr_requested env) false false)
      (landingNormal data)
      zero
      (mkOutside [] [] []
         [mkListener SceneEl "enter-vr" enterVR_h;
          mkListener SceneEl "exit-vr" exitVR_h;
          mkListener Document "visibilitychange" visibilityChange_h]
         0) in
  setupCursor env (updateRaycastObjects env st0).

Definition play (env : Env) (st : State) : State :=
  let st1 := setupCursor env st in
  let st2 :=
    set_listeners (addEventListener keydownListener (listeners (outside st1))) st1 in
  if isVR (vr st2) then initializeTunnelForVR env st2 else st2.

Definition pause (st : State) : State :=
  let st1 := hideCursor (stopTransition false st) in
  set_listeners (removeEventListener keydownListener (listeners (outside st1))) st1.

(** The registry refresh of [tick]: [!this.lastRaycastUpdate] holds for
    [undefined] and for [0]. *)
Definition refreshRegistry (time : Q) (env : Env) (st : State) : State :=
  let h := hover st in
  let due :=
    match lastRaycastUpdate h with
    | None => true
    | Some l => Qeq_bool l 0 || Qlt_bool 15000 (time - l)
    end in
  if due
  then
    let st1 := updateRaycastObjects env st in
    let h1 := hover st1 in
    set_hover
      (mkHoverCache (lastTeleportCheck h1) (cachedTeleportPos h1) (Some time)) st1
  else st.

(** The indicator update of [tick] for a resolved [teleportPos].
    [teleportPos.normal] is [this.tempVector3], so
    [this.tempVector3.copy(teleportPos.normal).multiplyScalar(0.01)]
    scales the normal of the landing in place. *)
Definition showIndicator (teleportPos : option Landing) (st : State) : State :=
  let ind := teleportIndicator st in
  match teleportPos with
  | Some l =>
      let position_ := landing_point l in
      if alignToSurface data
      then
        let scaled := multiplyScalar (deref st (landing_normal l)) (1 # 100) in
        let st1 := set_tempVector3 scaled st in
        let offsetPosition := add position_ scaled in
        let teleportQuaternion :=
          setFromUnitVectors upVector (deref st1 (landing_normal l)) in
        set_teleportIndicator (mkPose offsetPosition teleportQuaternion true) st1
      else set_teleportIndicator (mkPose position_ identity true) st
  | None =>
      set_teleportIndicator (mkPose (position ind) (quaternion ind) false) st
  end.

(** [if (!this.transitioning) { ... }] of [tick]. *)
Definition hoverStep (time : Q) (env : Env) (st : State) : State :=
  if transitioning (transitionState st) then st
  else
    let h := hover st in
    if Qlt_bool teleportCheckInterval (time - lastTeleportCheck h)
    then
      let '(teleportPos, st1) := getTeleportPositionFromCursor env st in
      let st2 :=
        set_hover (mkHoverCache time teleportPos (lastRaycastUpdate (hover st1)))
                  st1 in
      showIndicator teleportPos st2
    else showIndicator (cachedTeleportPos h) st.

(** [if (this.transitioning) { ... }] of [tick]. *)
Definition transitionStep (deltaTime : Q) (st : State) : State :=
  let t := transitionState st in
  if transitioning t
  then
    let progress := transitionProgress t + deltaTime * transitionSpeed data in
    let easedProgress := easeInOutQuad progress in
    let rig := camRig st in
    let camPos :=
      lerpVectors (transitionCamPosStart t) (transitionCamPosEnd t) easedProgress in
    let rot :=
      if alignToSurface data
      then
        let rotationProgress :=
          Math_min (easedProgress * rotationSmoothing data) 1 in
        slerpQuaternions (transitionRotStart t) (transitionRotEnd t)
                         rotationProgress
      else quaternion rig in
    if Qle_bool 1 progress
    then
      let rot' := if alignToSurface data then transitionRotEnd t else rot in
      let st1 :=
        emit "navigation-end"
          (set_camRig (mkPose (transitionCamPosEnd t) rot' (shown rig))
             (set_transitionState
                (mkTransition false progress
                   (transitionCamPosStart t) (transitionCamPosEnd t)
                   (transitionRotStart t) (transitionRotEnd t)
                   (targetSurfaceNormal t)) st)) in
      if isVR (vr st1) && tunnelElement (vr st1)
      then triggerTunnelUpAnimation st1 else st1
    else
      set_camRig (mkPose camPos rot (shown rig))
        (set_transitionState
           (mkTransition true progress
              (transitionCamPosStart t) (transitionCamPosEnd t)
              (transitionRotStart t) (transitionRotEnd t)
              (targetSurfaceNormal t)) st)
  else st.

(** [tick(time, deltaTime)]; the performance statistics of debug mode
    are left out. *)
Definition tick (time deltaTime : Q) (env : Env) (st : State) : State :=
  transitionStep deltaTime (hoverStep time env (refreshRegistry time env st)).

(** *** The component as a reactive system *)

(** What the host can do to the component: run a frame, play or pause
    it, fire a pending [setTimeout] callback, dispatch a DOM event of
    some type on some target, or initialise a [navmesh] or
    [raycast-exclude] component on some entity of the scene. *)
Inductive Input :=
| Tick (time deltaTime : Q)
| Play
| Pause
| Timeout
| Dispatch (target : Target) (type : string) (event : PointerEvent)
| NavmeshInit (el : Object3D)
| RaycastExcludeInit (el : Object3D).

Definition runHandler (h : Handler) (event : PointerEvent) (env : Env)
    (st : State) : State :=
  match h with
  | enterVR_h => onEnterVR env st
  | exitVR_h => onExitVR st
  | visibilityChange_h => onVisibilityChange env st
  | cursorClick_h => cursorClickHandler env st
  | hideCursor_h => hideCursor st
  | mouseMove_h => mouseMove event env st
  | mouseDown_h => mouseDown event env st
  | mouseUp_h => mouseUp event env st
  end.

Definition listensTo (target : Target) (type : string) (l : Listener) : bool :=
  bool_decide (l_target l = target) && String.eqb (l_type l) type.

(** [target.dispatchEvent(event)]: the listeners registered for the
    type on the target when the dispatch starts, in registration order. *)
Definition dispatch (target : Target) (type : string) (event : PointerEvent)
    (env : Env) (st : State) : State :=
  foldl (fun s l => runHandler (l_handler l) event env s) st
        (List.filter (listensTo target type) (listeners (outside st))).

Definition step (env : Env) (i : Input) (st : State) : State :=
  match i with
  | Tick time deltaTime => tick time deltaTime env st
  | Play => play env st
  | Pause => pause st
  | Timeout =>
      match pendingSetupCursor (outside st) with
      | O => st
      | S n => setupCursor env (set_pending n st)
      end
  | Dispatch target type event => dispatch target type event env st
  | NavmeshInit el => set_userData (navmesh_init el (userData st)) st
  | RaycastExcludeInit el => set_userData (raycast_exclude_init el (userData st)) st
  end.

(** A run of the component: the inputs it receives, each with the
    environment of that moment. *)
Definition run (inputs : list (Env * Input)) (st : State) : State :=
  foldl (fun s ei => step (fst ei) (snd ei) s) st inputs.

(** The states the component can be in. *)
Inductive reachable : State -> Prop :=
| reachable_init env store rig camera :
    reachable (init env store rig camera)
| reachable_step env i st :
    reachable st -> reachable (step env i st).

End CursorTeleport.

(** ** Vocabulary of the properties *)

Section Vocabulary.
Context `{!Three}.

(** The list the cursor resolver raycasts for occlusion:
    [this.allSceneMeshes || []]. *)
Definition occlusionMeshes (st : State) : list Object3D :=
  default [] (allSceneMeshes (registry st)).

(** Every intersection of the ray with the occlusion list (the call is
    recursive, so the descendants of its members are tested too), before
    sorting. *)
Definition sceneHits (rc : Raycaster) (st : State) : list Intersection :=
  flat_map (intersectObject rc true) (occlusionMeshes st).

(** The intersection the cursor resolver looks at: [allIntersects[0]]. *)
Definition nearestSceneHit (rc : Raycaster) (st : State) : option Intersection :=
  head (intersectObjects rc (occlusionMeshes st) true).

(** The THREE raycaster a cursor query uses, when the component is
    linked to the a-cursor entity and that entity has one. *)
Definition cursorRay (env : Env) (st : State) : option Raycaster :=
  if cursorRaycaster (cursorLink st) || cursorEl (cursorLink st)
  then raycasterOf env else None.

(** The face normal of a hit, transformed by the normal matrix of the
    hit object and normalized. *)
Definition worldNormal (h : Intersection) : Vector3 :=
  normalize (applyMatrix3 (face_normal h) (getNormalMatrix (matrixWorld (object h)))).

(** The angle, in degrees, between a reference vector and the world
    normal of a hit, as [isValidNormalsAngle] computes it. *)
Definition landingAngle (reference : Vector3) (h : Intersection) : Q :=
  RAD2DEG * angleTo reference
              (applyNormalMatrix (face_normal h)
                                 (getNormalMatrix (matrixWorld (object h)))).

(** Both flags of a collidable navmesh surface. *)
Definition collidableNavmesh (st : State) (o : Object3D) : Prop :=
  isNavmesh (userDataOf (userData st) o) = true
  /\ collision (userDataOf (userData st) o) = true.


(** The events emitted on [this.el] with a given name. *)
Definition emittedCount (name : string) (st : State) : nat :=
  length (List.filter (String.eqb name) (emitted (outside st))).

(** A run of frames: [tick] calls only, each with its environment,
    time and frame time. *)
Definition frames (fs : list (Env * (Q * Q))) : list (Env * Input) :=
  List.map (fun f => (f.1, Tick f.2.1 f.2.2)) fs.

(** The listeners the component registers anywhere in its code. *)
Definition wiring : list Listener :=
  [mkListener SceneEl "enter-vr" enterVR_h;
   mkListener SceneEl "exit-vr" exitVR_h;
   mkListener Document "visibilitychange" visibilityChange_h;
   mkListener CursorEl "click" cursorClick_h;
   mkListener Window "keydown" hideCursor_h].

Definition isMouseHandler (h : Handler) : bool :=
  match h with
  | mouseMove_h | mouseDown_h | mouseUp_h => true
  | _ => false
  end.

End Vocabulary.

(** ** Invariants *)

Section InvariantVocabulary.
Context `{!Three}.
Variable data : Data.

(** The parts of the state the hover preview and the registry leave
    alone. *)
Definition core (st : State) :=
  (referenceNormal st, listeners (outside st), emitted (outside st),
   pendingSetupCursor (outside st), transitionState st, camRig st).

(** [this.referenceNormal] is the configured [landingNormal]. *)
Definition referenceIsConfigured (st : State) : Prop :=
  referenceNormal st = landingNormal data.

(** Without surface alignment, the end orientation of a transition in
    progress is the orientation the rig has. *)
Definition rotEndSettled (st : State) : Prop :=
  alignToSurface data = false ->
  transitioning (transitionState st) = true ->
  transitionRotEnd (transitionState st) = quaternion (camRig st).

(** Every registered listener is one of [wiring]. *)
Definition wired (st : State) : Prop :=
  forall l, l ∈ listeners (outside st) -> l ∈ wiring.

(** The recorded mouse positions are the initial ones. *)
Definition mouseUntouched (st : State) : Prop :=
  mousePosition (mouse st) = vec2 0 0
  /\ mouseOriginalPosition (mouse st) = vec2 0 0.

End InvariantVocabulary.

(** The ease of the specification: [2t^2] below one half, else
    [1 - (-2t + 2)^2 / 2]. *)
Definition symmetricQuadEase_spec (t : Q) : Q :=
  if Qlt_bool t (1 # 2) then 2 * t * t
  else 1 - ((-2 * t + 2) * (-2 * t + 2)) / 2.

(** ** The easing in binary64

    [easeInOutQuad] as the program computes it, every operation rounded
    to the nearest double, and the ease of the specification computed
    the same way. *)

Module Binary64.
Import PrimFloat.

Definition easeInOutQuad (t : float) : float :=
  if (t <? 0.5)%float then (2 * t * t)%float
  else ((4 - 2 * t) * t - 1)%float.

Definition symmetricQuadEase_spec (t : float) : float :=
  if (t <? 0.5)%float then (2 * t * t)%float
  else (1 - ((-2 * t + 2) * (-2 * t + 2)) / 2)%float.

End Binary64.

(** ** Test scenes

    A stand-in for three.js with exact arithmetic, and a few scenes, used
    to run the model on concrete inputs. Every ray is the vertical ray from
    [(0, 5, 0)] downwards; it meets the floor (object 1) at distance 5,
    the box (object 2) at distance 2 and the wall-like ramp (object 3) at
    distance 4. World matrices are the identity, so normals are left as
    they are, and [angleTo] tells equal vectors (angle 0) from different
    ones (a right angle). *)
Module Scenes.

Definition I4 : Matrix4 := [1;0;0;0; 0;1;0;0; 0;0;1;0; 0;0;0;1].

Definition downRay : Raycaster := mkRaycaster (vec3 0 5 0) (vec3 0 (-1) 0).

Definition sameVector (a b : Vector3) : bool :=
  Qeq_bool (vx a) (vx b) && Qeq_bool (vy a) (vy b) && Qeq_bool (vz a) (vz b).

#[local] Instance flat : Three := {|
  raycast := fun _ o =>
    match oid o with
    | Oid 1 => [mkIntersection 5 (vec3 0 0 0) (vec3 0 1 0) o]
    | Oid 2 => [mkIntersection 2 (vec3 0 3 0) (vec3 0 1 0) o]
    | Oid 3 => [mkIntersection 4 (vec3 0 1 0) (vec3 1 0 0) o]
    | _ => []
    end;
  recursive_default := true;
  setFromCamera := fun _ => downRay;
  getNormalMatrix := fun _ => [1;0;0; 0;1;0; 0;0;1];
  applyMatrix3 := fun v _ => v;
  applyNormalMatrix := fun v _ => v;
  normalize := fun v => v;
  angleTo := fun a b => if sameVector a b then 0 else 157 # 100;
  RAD2DEG := 573 # 10;
  setFromUnitVectors := fun _ b => quat (vx b) (vy b) (vz b) 1;
  slerpQuaternions := fun a b t => if Qle_bool 1 t then b else a
|}.

Definition defaults : Data :=
  mkData "[navmesh]" "" 45 (vec3 0 1 0) (6 # 10000) true 1.

Definition floorMesh : Object3D := mkObject3D (Oid 1) true true I4 [].
Definition boxMesh : Object3D := mkObject3D (Oid 2) true true I4 [].
Definition rampMesh : Object3D := mkObject3D (Oid 3) true true I4 [].
Definition floorEl : Object3D := mkObject3D (Oid 10) false true I4 [floorMesh].
Definition boxEl : Object3D := mkObject3D (Oid 20) false true I4 [boxMesh].
Definition rampEl : Object3D := mkObject3D (Oid 30) false true I4 [rampMesh].

(** The ring mesh of the teleport indicator is a child of the scene. No
    run below rebuilds the registry while it is shown, so it is listed
    with [visible = false]. *)
Definition indicatorMesh : Object3D := mkObject3D (Oid 99) true false I4 [].

Definition sceneOf (els : list Object3D) : Object3D :=
  mkObject3D (Oid 0) false true I4 (els ++ [indicatorMesh]).

(** An environment with the given entities in the scene, the given
    navmesh entities and the given [.wall] entities; the a-cursor is
    ready. *)
Definition envOf (els navmeshes walls : list Object3D) : Env :=
  mkEnv (sceneOf els)
        (fun sel =>
           if String.eqb sel "[navmesh]" then navmeshes
           else if String.eqb sel ".wall" then walls
           else [])
        (Some (Some downRay)) false false false (vec2 800 600) (vec2 0 0).

(** A floor alone; a box above the floor; a ramp alone. *)
Definition floorOnly : Env := envOf [floorEl] [floorEl] [].
Definition boxOverFloor : Env := envOf [floorEl; boxEl] [floorEl] [boxEl].
Definition rampOnly : Env := envOf [rampEl] [rampEl] [].

(** The floor after its [navmesh] attribute was removed: still in the
    scene graph, no longer matched by the collision selector. *)
Definition floorUntagged : Env := envOf [floorEl] [] [].

Definition rig0 : Pose := mkPose (vec3 0 0 4) identity true.

Definition noEvent : PointerEvent := mkPointerEvent None None.

(** The configuration with [ignoreEntities: .wall]. *)
Definition ignoringWalls : Data :=
  mkData "[navmesh]" ".wall" 45 (vec3 0 1 0) (6 # 10000) true 1.

(** The intersections of the ray with the three meshes. *)
Definition floorHit : Intersection :=
  mkIntersection 5 (vec3 0 0 0) (vec3 0 1 0) floorMesh.
Definition boxHit : Intersection :=
  mkIntersection 2 (vec3 0 3 0) (vec3 0 1 0) boxMesh.
Definition rampHit : Intersection :=
  mkIntersection 4 (vec3 0 1 0) (vec3 1 0 0) rampMesh.

(** The component right after [init] in each scene. *)
Definition onFloor : State := init defaults floorOnly ∅ rig0 true.
Definition underBox : State := init defaults boxOverFloor ∅ rig0 true.
Definition onRamp : State := init defaults rampOnly ∅ rig0 true.
Definition underWall : State := init ignoringWalls boxOverFloor ∅ rig0 true.


(** Hovering the floor for a frame, then clicking. *)
Definition hovering : State := step defaults floorOnly (Tick 100 16) onFloor.
Definition clicked : State :=
  step defaults floorOnly (Dispatch CursorEl "click" noEvent) hovering.

End Scenes.

(** ** Further vocabulary *)

(** One flag record carries every flag of another. *)
Definition flagsKept (u u' : UserData) : Prop :=
  (collision u = true -> collision u' = true)
  /\ (isNavmesh u = true -> isNavmesh u' = true)
  /\ (raycastExclude u = true -> raycastExclude u' = true).


(** The test of [tick] for a registry refresh. *)
Definition refreshDue (time : Q) (st : State) : bool :=
  match lastRaycastUpdate (hover st) with
  | None => true
  | Some l => Qeq_bool l 0 || Qlt_bool 15000 (time - l)
  end.

(** ["navigation-end"] events never outnumber the transitions started:
    a transition in progress still owes one. *)
Definition eventsBalanced (st : State) : Prop :=
  (emittedCount "navigation-end" st
   + (if transitioning (transitionState st) then 1 else 0)
   <= emittedCount "navigation-start" st)%nat.

(** At most one retry of [setupCursor] is pending, and none before the
    first failure. *)
Definition retriedOnce (st : State) : Prop :=
  (pendingSetupCursor (outside st) <= 1)%nat
  /\ (cursorSetupRetried (cursorLink st) = false ->
      pendingSetupCursor (outside st) = 0%nat).

Section ScreenVocabulary.
Context `{!Three}.

(** The ray [getTeleportPosition] casts for the canvas position
    [(x, y)]. *)
Definition screenRay (env : Env) (x y : Q) : Raycaster :=
  setFromCamera
    (vec2 ((x / v2x (canvas_size env)) * 2 - 1)
          (- (y / v2y (canvas_size env)) * 2 + 1)).

(** The intersection the screen resolver looks at: [intersects[0]]. *)
Definition nearestRegistryHit (rc : Raycaster) (st : State) : option Intersection :=
  head (intersectObjects rc (rayCastObjects (registry st)) recursive_default).

End ScreenVocabulary.

(** ** The [pinch-teleport-02] component *)

(** [this.data]: the collision selector, and whether [cameraRig] resolved
    to an entity. *)
Record PinchData := mkPinchData {
  p_collisionEntities : string;
  p_cameraRig : bool
}.

(** What the host shows a method of the component: the selector query,
    the ray from the world position of the hand along its forward axis
    ([getWorldPosition], [(0, 0, -1).applyQuaternion]), and the clock:
    [performance_now k] is the value of the [k]-th call of
    [performance.now()] made while the method runs. *)
Record PinchEnv := mkPinchEnv {
  p_querySelectorAll : string -> list Object3D;
  hand : Raycaster;
  performance_now : nat -> Q
}.

(** The closure [animate] of a teleport: what it captured. *)
Record Animation := mkAnimation {
  startTime : Q;
  startPos : Vector3;
  endPos : Vector3
}.

(** [this] of the component, with the flags of the scene objects, the
    position of the camera rig and the [animate] callbacks waiting for the
    next animation frame, in the order of their registration. *)
Record PinchState := mkPinchState {
  p_rayCastObjects : list Object3D;
  teleportRing : Pose;
  lastUpdate : option Q;
  p_userData : gmap ObjId UserData;
  rigPosition : Vector3;
  animations : list Animation
}.

Section PinchTeleport.
Context `{!Three}.
Variable pdata : PinchData.

(** The methods that share a name with one of [a-cursor-teleport] carry
    the prefix [p_]. *)

(** [updateRaycastObjects]. *)
Definition p_updateRaycastObjects (env : PinchEnv) (ps : PinchState) : PinchState :=
  if negb (String.eqb (p_collisionEntities pdata) "")
  then
    let meshes := meshesOf (p_querySelectorAll env (p_collisionEntities pdata)) in
    mkPinchState meshes (teleportRing ps) (lastUpdate ps)
                 (foldl setCollision (p_userData ps) meshes)
                 (rigPosition ps) (animations ps)
  else
    mkPinchState [] (teleportRing ps) (lastUpdate ps) (p_userData ps)
                 (rigPosition ps) (animations ps).

(** [getTeleportPosition]: the first intersection of the hand ray with
    the registry, when its object is flagged as collision. *)
Definition p_getTeleportPosition (env : PinchEnv) (ps : PinchState)
  : option Vector3 :=
  match intersectObjects (hand env) (p_rayCastObjects ps) recursive_default with
  | intersect :: _ =>
      if collision (userDataOf (p_userData ps) (object intersect))
      then Some (point intersect) else None
  | [] => None
  end.

Definition set_teleportRing (r : Pose) (ps : PinchState) : PinchState :=
  mkPinchState (p_rayCastObjects ps) r (lastUpdate ps) (p_userData ps)
               (rigPosition ps) (animations ps).

Definition onPinchStarted (env : PinchEnv) (ps : PinchState) : PinchState :=
  match p_getTeleportPosition env ps with
  | Some teleportPos =>
      set_teleportRing (mkPose teleportPos (quaternion (teleportRing ps)) true) ps
  | None => ps
  end.

(** One call of [animate] at clock value [t]. A callback that asks for
    another animation frame is put at the end of the waiting ones. *)
Definition animate (a : Animation) (t : Q) (ps : PinchState) : PinchState :=
  let elapsed := t - startTime a in
  let progress := Math_min (elapsed / 500) 1 in
  let easedProgress :=
    if Qlt_bool progress (1 # 2) then 2 * progress * progress
    else (4 - 2 * progress) * progress - 1 in
  let moved := lerpVectors (startPos a) (endPos a) easedProgress in
  if Qlt_bool progress 1
  then mkPinchState (p_rayCastObjects ps) (teleportRing ps) (lastUpdate ps)
                    (p_userData ps) moved (animations ps ++ [a])
  else mkPinchState (p_rayCastObjects ps) (teleportRing ps) (lastUpdate ps)
                    (p_userData ps) (endPos a) (animations ps).

(** [teleportToCameraRig(position)]: the clock is read for [startTime],
    then [animate()] is called at once and reads it again. *)
Definition teleportToCameraRig (position_ : Vector3) (env : PinchEnv)
    (ps : PinchState) : PinchState :=
  if negb (p_cameraRig pdata) then ps
  else animate (mkAnimation (performance_now env 0) (rigPosition ps) position_)
               (performance_now env 1) ps.

Definition onPinchEnded (env : PinchEnv) (ps : PinchState) : PinchState :=
  if shown (teleportRing ps)
  then
    let teleportPos := position (teleportRing ps) in
    let ps1 := teleportToCameraRig teleportPos env ps in
    set_teleportRing
      (mkPose (position (teleportRing ps1)) (quaternion (teleportRing ps1)) false) ps1
  else ps.

(** An animation frame: the callbacks that were waiting run in order, the
    [k]-th reading the clock as [performance_now k]. *)
Fixpoint animateAll (k : nat) (waiting : list Animation) (env : PinchEnv)
    (ps : PinchState) : PinchState :=
  match waiting with
  | [] => ps
  | a :: rest => animateAll (S k) rest env (animate a (performance_now env k) ps)
  end.

Definition animationFrame (env : PinchEnv) (ps : PinchState) : PinchState :=
  animateAll 0 (animations ps) env
    (mkPinchState (p_rayCastObjects ps) (teleportRing ps) (lastUpdate ps)
                  (p_userData ps) (rigPosition ps) []).

(** [tick]: [!this.lastUpdate] holds for [undefined] and for [0], and
    then the clock is read once, for the stamp; otherwise it is read for
    the test and again for the stamp. *)
Definition p_tick (env : PinchEnv) (ps : PinchState) : PinchState :=
  let refreshed (stamp : Q) :=
    let ps1 := p_updateRaycastObjects env ps in
    mkPinchState (p_rayCastObjects ps1) (teleportRing ps1) (Some stamp)
                 (p_userData ps1) (rigPosition ps1) (animations ps1) in
  let ps1 :=
    match lastUpdate ps with
    | None => refreshed (performance_now env 0)
    | Some l =>
        if Qeq_bool l 0 then refreshed (performance_now env 0)
        else if Qlt_bool 30000 (performance_now env 0 - l)
             then refreshed (performance_now env 1)
        else ps
    end in
  if shown (teleportRing ps1)
  then
    match p_getTeleportPosition env ps1 with
    | Some teleportPos =>
        set_teleportRing
          (mkPose teleportPos (quaternion (teleportRing ps1)) true) ps1
    | None =>
        set_teleportRing
          (mkPose (position (teleportRing ps1)) (quaternion (teleportRing ps1)) false)
          ps1
    end
  else ps1.

(** [init], given the flags of the scene and the position of the rig. *)
Definition p_init (env : PinchEnv) (store : gmap ObjId UserData) (rig : Vector3)
  : PinchState :=
  p_updateRaycastObjects env
    (mkPinchState [] (mkPose (vec3 0 0 0) identity false) None store rig []).

(** The events [init] registers the two handlers for, on [this.el]. *)
Definition pinchStartEvents : list string := ["pinchstarted"; "triggerdown"; "gripdown"].
Definition pinchEndEvents : list string := ["pinchended"; "triggerup"; "gripup"].

Definition p_dispatch (type : string) (env : PinchEnv) (ps : PinchState)
  : PinchState :=
  if bool_decide (type ∈ pinchStartEvents) then onPinchStarted env ps
  else if bool_decide (type ∈ pinchEndEvents) then onPinchEnded env ps
  else ps.

End PinchTeleport.

(** ** The [click-teleport-03] component *)

(** The rig position, the events emitted on the scene and the number of
    [setTimeout] callbacks still to fire. The names of this component
    carry the prefix [c_]. *)
Record ClickTeleport := mkClickTeleport {
  c_rigPosition : Vector3;
  c_emitted : list string;
  c_pending : nat
}.

(** [this.onClick]: [cameraRig] tells whether [this.data.cameraRig] is an
    entity, [intersection] is [event.detail.intersection.point], when
    there is an intersection. *)
Definition c_onClick (cameraRig : bool) (intersection : option Vector3)
    (c : ClickTeleport) : ClickTeleport :=
  match intersection with
  | Some teleportPos =>
      if cameraRig
      then mkClickTeleport teleportPos (c_emitted c ++ ["navigation-start"])
                           (S (c_pending c))
      else c
  | None => c
  end.

(** A timer set by [onClick] fires. *)
Definition c_timeout (c : ClickTeleport) : ClickTeleport :=
  match c_pending c with
  | O => c
  | S n => mkClickTeleport (c_rigPosition c) (c_emitted c ++ ["navigation-end"]) n
  end.

Inductive ClickInput :=
| Click (cameraRig : bool) (intersection : option Vector3)
| TimerFires.

Definition c_step (i : ClickInput) (c : ClickTeleport) : ClickTeleport :=
  match i with
  | Click cameraRig intersection => c_onClick cameraRig intersection c
  | TimerFires => c_timeout c
  end.

Definition c_count (name : string) (c : ClickTeleport) : nat :=
  length (List.filter (String.eqb name) (c_emitted c)).

(** ** The [go-to] component *)

(** The names this component shares with another carry the prefix
    [g_]. *)

Record GoToData := mkGoToData {
  g_position : Vector3;
  g_rotation : Vector3;
  g_unload : string;
  g_load : string;
  g_duration : Q;
  g_easing : string
}.

(** The value of an [animation__...] attribute. The [from] and [to] of a
    position animation are kept as vectors, not as the strings the source
    builds from their coordinates. *)
Record TunnelAnimation := mkTunnelAnimation {
  ta_property : string;
  ta_to : Q;
  ta_dur : Q;
  ta_easing : string
}.

Record GoAnimation := mkGoAnimation {
  ga_property : string;
  ga_dur : Q;
  ga_easing : string;
  ga_from : Vector3;
  ga_to : Vector3
}.

(** What a method finds outside the component: the clock, the position
    of the rig (the animation component of the rig moves it), whether the
    scene has a [#tunnel] entity, and whether the entity the [unload]
    selector names exists and has a mesh. *)
Record GoToEnv := mkGoToEnv {
  g_now : Q;
  g_rigPosition : Vector3;
  tunnelInScene : bool;
  unloadHasMesh : bool
}.

(** [this], with what the component writes outside itself: the
    orientation of the rig, the attributes it sets on the rig, on the
    tunnel ([tunnelVisible] is [None] until the component sets [visible])
    and on the unloaded entity, the listeners it has registered with
    [once] and the events it has emitted on the rig. *)
Record GoTo := mkGoTo {
  animatingRotation : bool;
  rotationStartTime : Q;
  rotationDuration : Q;
  g_transitionRotStart : Quaternion;
  g_transitionRotEnd : Quaternion;
  g_tempVector3 : Vector3;
  g_tunnelElement : bool;
  g_rigQuaternion : Quaternion;
  animation__go : option GoAnimation;
  animationcomplete__go : bool;
  model_loaded : nat;
  animation__down : option TunnelAnimation;
  animation__up : option TunnelAnimation;
  tunnelVisible : option bool;
  gltf_model : option string;
  g_emitted : list string
}.

(** The two interpolation factors of [tick] that are no finite numbers. *)
Inductive NonFinite := NaN | Infinity.

(** [Math.abs]. *)
Definition Math_abs (x : Q) : Q := if Qle_bool 0 x then x else - x.

Section GoToComponent.
Context `{!Three}.

(** [Quaternion.setFromEuler] of the Euler angles, in the order YXZ, that
    [degToRad] gives for a rotation in degrees. *)
Variable setFromEuler : Vector3 -> Quaternion.

(** [slerpQuaternions] for an interpolation factor that is no finite
    number, which a rational cannot hold: what three.js leaves in the
    quaternion then. *)
Variable slerpNonFinite : Quaternion -> Quaternion -> NonFinite -> Quaternion.
Variable gdata : GoToData.

(** [init], given the orientation of the rig. *)
Definition g_init (rigQuaternion_ : Quaternion) : GoTo :=
  mkGoTo false 0 (g_duration gdata) identity identity (vec3 0 0 0) false
         rigQuaternion_ None false 0 None None None None [].

(** [hasRotation] of [moveCamera]. *)
Definition hasRotation : bool :=
  Qlt_bool (1 # 1000) (Math_abs (vx (g_rotation gdata)))
  || Qlt_bool (1 # 1000) (Math_abs (vy (g_rotation gdata)))
  || Qlt_bool (1 # 1000) (Math_abs (vz (g_rotation gdata))).

(** [moveCamera]: the rotation animation is set up, the position
    animation is handed to the animation component of the rig. *)
Definition moveCamera (env : GoToEnv) (g : GoTo) : GoTo :=
  let from := g_rigPosition env in
  let go := mkGoAnimation "position" (g_duration gdata) (g_easing gdata)
                          from (g_position gdata) in
  if hasRotation
  then mkGoTo true (g_now env) (g_duration gdata)
              (g_rigQuaternion g) (setFromEuler (g_rotation gdata)) from
              (g_tunnelElement g) (g_rigQuaternion g)
              (Some go) true (model_loaded g)
              (animation__down g) (animation__up g) (tunnelVisible g)
              (gltf_model g) (g_emitted g)
  else mkGoTo false (rotationStartTime g) (rotationDuration g)
              (g_transitionRotStart g) (g_transitionRotEnd g) from
              (g_tunnelElement g) (g_rigQuaternion g)
              (Some go) true (model_loaded g)
              (animation__down g) (animation__up g) (tunnelVisible g)
              (gltf_model g) (g_emitted g).

(** [onClick(evt)]: [intersection] tells whether
    [evt.detail && evt.detail.intersection] is truthy. *)
Definition g_onClick (intersection : bool) (env : GoToEnv) (g : GoTo) : GoTo :=
  if negb intersection then g
  else
    let found := if g_tunnelElement g then true else tunnelInScene env in
    let down :=
      if found
      then Some (mkTunnelAnimation "scale.y" (-1) 500 (g_easing gdata))
      else animation__down g in
    moveCamera env
      (mkGoTo (animatingRotation g) (rotationStartTime g) (rotationDuration g)
              (g_transitionRotStart g) (g_transitionRotEnd g) (g_tempVector3 g)
              found (g_rigQuaternion g)
              (animation__go g) (animationcomplete__go g) (model_loaded g)
              down (animation__up g) (tunnelVisible g)
              (gltf_model g) (g_emitted g)).

(** [_tunnelUp()] followed by [this.rigEl.emit("go-to-complete")]. *)
Definition tunnelUpAndComplete (g : GoTo) : GoTo :=
  mkGoTo (animatingRotation g) (rotationStartTime g) (rotationDuration g)
         (g_transitionRotStart g) (g_transitionRotEnd g) (g_tempVector3 g)
         (g_tunnelElement g) (g_rigQuaternion g)
         (animation__go g) (animationcomplete__go g) (model_loaded g)
         (animation__down g)
         (if g_tunnelElement g
          then Some (mkTunnelAnimation "scale.y" (1 # 10) 500 (g_easing gdata))
          else animation__up g)
         (tunnelVisible g) (gltf_model g)
         (g_emitted g ++ ["go-to-complete"]).

(** [onAnimEnd]. *)
Definition onAnimEnd (env : GoToEnv) (g : GoTo) : GoTo :=
  let g1 :=
    if animatingRotation g
    then mkGoTo false (rotationStartTime g) (rotationDuration g)
                (g_transitionRotStart g) (g_transitionRotEnd g) (g_tempVector3 g)
                (g_tunnelElement g) (g_transitionRotEnd g)
                (animation__go g) (animationcomplete__go g) (model_loaded g)
                (animation__down g) (animation__up g) (tunnelVisible g)
                (gltf_model g) (g_emitted g)
    else g in
  let hasReplace :=
    negb (String.eqb (g_unload gdata) "") && negb (String.eqb (g_load gdata) "") in
  if hasReplace && unloadHasMesh env
  then mkGoTo (animatingRotation g1) (rotationStartTime g1) (rotationDuration g1)
              (g_transitionRotStart g1) (g_transitionRotEnd g1) (g_tempVector3 g1)
              (g_tunnelElement g1) (g_rigQuaternion g1)
              (animation__go g1) (animationcomplete__go g1) (S (model_loaded g1))
              (animation__down g1) (animation__up g1) (tunnelVisible g1)
              (Some (g_load gdata)) (g_emitted g1)
  else tunnelUpAndComplete g1.

(** [tick], [rotationDuration] being zero or not. With a duration of
    zero the quotient [elapsed / this.rotationDuration] is [Infinity],
    [NaN] or [-Infinity] as [elapsed] is positive, zero or negative:
    [Math.min(Infinity, 1)] is 1 and the rotation ends; a progress of
    [NaN] gives an eased progress of [NaN] and a progress of [-Infinity]
    one of [Infinity], neither [>= 1.0], and the animation goes on. *)
Definition g_tick (env : GoToEnv) (g : GoTo) : GoTo :=
  let turned (animating : bool) (rot : Quaternion) :=
    mkGoTo animating (rotationStartTime g) (rotationDuration g)
           (g_transitionRotStart g) (g_transitionRotEnd g) (g_tempVector3 g)
           (g_tunnelElement g) rot
           (animation__go g) (animationcomplete__go g) (model_loaded g)
           (animation__down g) (animation__up g) (tunnelVisible g)
           (gltf_model g) (g_emitted g) in
  if animatingRotation g
  then
    let currentTime := g_now env in
    let elapsed := currentTime - rotationStartTime g in
    if Qeq_bool (rotationDuration g) 0
    then
      if Qlt_bool 0 elapsed then turned false (g_transitionRotEnd g)
      else
        turned true
          (slerpNonFinite (g_transitionRotStart g) (g_transitionRotEnd g)
                          (if Qeq_bool elapsed 0 then NaN else Infinity))
    else
      let progress := Math_min (elapsed / rotationDuration g) 1 in
      let easedProgress :=
        if Qlt_bool progress (1 # 2) then 2 * progress * progress
        else -1 + (4 - 2 * progress) * progress in
      let rot :=
        slerpQuaternions (g_transitionRotStart g) (g_transitionRotEnd g)
                         easedProgress in
      if Qle_bool 1 progress
      then turned false (g_transitionRotEnd g)
      else turned true rot
  else g.

(** [hideTunnel], the keydown listener. *)
Definition hideTunnel (g : GoTo) : GoTo :=
  if g_tunnelElement g
  then mkGoTo (animatingRotation g) (rotationStartTime g) (rotationDuration g)
              (g_transitionRotStart g) (g_transitionRotEnd g) (g_tempVector3 g)
              (g_tunnelElement g) (g_rigQuaternion g)
              (animation__go g) (animationcomplete__go g) (model_loaded g)
              (animation__down g) (animation__up g) (Some false)
              (gltf_model g) (g_emitted g)
  else g.

(** What happens to the component: a click on its entity, a frame, a key
    press, and the two events it waits for with [once]: the end of the
    position animation and the end of the loading of the replacement
    model. *)
Inductive GoToInput :=
| GClick (intersection : bool)
| GTick
| GKeydown
| AnimationComplete
| ModelLoaded.

(** A listener registered with [once] is gone when it runs. *)
Definition g_step (i : GoToInput) (env : GoToEnv) (g : GoTo) : GoTo :=
  match i with
  | GClick intersection => g_onClick intersection env g
  | GTick => g_tick env g
  | GKeydown => hideTunnel g
  | AnimationComplete =>
      if animationcomplete__go g
      then
        onAnimEnd env
          (mkGoTo (animatingRotation g) (rotationStartTime g) (rotationDuration g)
                  (g_transitionRotStart g) (g_transitionRotEnd g) (g_tempVector3 g)
                  (g_tunnelElement g) (g_rigQuaternion g)
                  (animation__go g) false (model_loaded g)
                  (animation__down g) (animation__up g) (tunnelVisible g)
                  (gltf_model g) (g_emitted g))
      else g
  | ModelLoaded =>
      Nat.iter (model_loaded g) tunnelUpAndComplete
        (mkGoTo (animatingRotation g) (rotationStartTime g) (rotationDuration g)
                (g_transitionRotStart g) (g_transitionRotEnd g) (g_tempVector3 g)
                (g_tunnelElement g) (g_rigQuaternion g)
                (animation__go g) (animationcomplete__go g) 0
                (animation__down g) (animation__up g) (tunnelVisible g)
                (gltf_model g) (g_emitted g))
  end.

Definition g_run (inputs : list (GoToInput * GoToEnv)) (g : GoTo) : GoTo :=
  foldl (fun g ie => g_step ie.1 ie.2 g) g inputs.

End GoToComponent.

(** The clicks with an intersection among the inputs of a run, and the
    ["go-to-complete"] events emitted so far. *)
Definition effectiveClicks (inputs : list (GoToInput * GoToEnv)) : nat :=
  length (List.filter (fun ie => match ie.1 with GClick true => true | _ => false end)
                      inputs).

Definition completions (g : GoTo) : nat :=
  length (List.filter (String.eqb "go-to-complete") (g_emitted g)).

(** ** Further scenes *)

Module MoreScenes.
Import Scenes.
#[local] Existing Instance flat.

(** A wall alone: matched by the ignore selector, by no collision
    selector. *)
Definition wallOnly : Env := envOf [boxEl] [] [boxEl].
Definition besideWall : State := init ignoringWalls wallOnly ∅ rig0 true.


(** The landing on the floor, as the resolver returns it. *)
Definition floorLanding : Landing := mkLanding (vec3 0 0 0) TempVector3.

(** One frame on the floor. *)
Definition oneFrame : list (Env * Input) := [(floorOnly, Tick 100 16)].

(** The hand of the pinch adapter over the ramp, whose entity carries the
    class of the default collision selector. *)
Definition pinchDefaults : PinchData := mkPinchData ".collision" true.

Definition handOverRamp : PinchEnv :=
  mkPinchEnv (fun sel => if String.eqb sel ".collision" then [rampEl] else [])
             downRay
             (fun k => 1000 + 8 * inject_Z (Z.of_nat k)).

Definition pinching : PinchState :=
  p_init pinchDefaults handOverRamp (userData onRamp) (vec3 0 0 4).

(** The ring shown on the ramp, and two teleports under way. *)
Definition aiming : PinchState := onPinchStarted handOverRamp pinching.

Definition firstJump : Animation := mkAnimation 900 (vec3 0 0 4) (vec3 2 0 0).
Definition secondJump : Animation := mkAnimation 950 (vec3 1 0 2) (vec3 0 1 0).

Definition jumping : PinchState :=
  mkPinchState (p_rayCastObjects pinching) (teleportRing pinching) (lastUpdate pinching)
               (p_userData pinching) (vec3 1 0 2) [firstJump; secondJump].

(** A go-to that turns the rig by a quarter, and one that asks for no
    rotation; the stand-in for [setFromEuler] keeps the angles, the one
    for an interpolation that is not finite gives the zero quaternion. *)
Definition eulerStandIn (v : Vector3) : Quaternion := quat (vx v) (vy v) (vz v) 1.
Definition nonFiniteStandIn (a b : Quaternion) (t : NonFinite) : Quaternion :=
  quat 0 0 0 0.

Definition quarterTurn : GoToData :=
  mkGoToData (vec3 3 0 3) (vec3 0 90 0) "" "" 2000 "easeInOutQuad".

Definition straight : GoToData :=
  mkGoToData (vec3 3 0 3) (vec3 0 (1 # 2000) 0) "#old" "new.glb" 2000 "easeInOutQuad".

Definition goToEnv (t : Q) : GoToEnv := mkGoToEnv t (vec3 0 0 4) true true.

Definition turning : GoTo :=
  g_onClick eulerStandIn quarterTurn true (goToEnv 1000) (g_init quarterTurn identity).

Definition goToRun : list (GoToInput * GoToEnv) :=
  [(GClick true, goToEnv 1000); (GTick, goToEnv 1500);
   (AnimationComplete, goToEnv 3000); (ModelLoaded, goToEnv 3500)].

End MoreScenes.

(** ** Proof automation *)

(** Unfold the methods of the component, callers first. *)
Ltac unfold_component :=
  unfold tick, play, pause, init, onEnterVR, onExitVR, onVisibilityChange,
    cursorClickHandler, mouseMove, mouseDown, mouseUp,
    transitionStep, hoverStep, refreshRegistry, showIndicator,
    confirmTeleport, transition, setupVRCursor, setupCursor,
    initializeTunnelForVR, getTeleportPositionVR,
    getTeleportPositionFromCursor, getTeleportPosition, resolveWith,
    landingAt, updateRaycastObjects, getMouseState, set_mousePosition,
    triggerTunnelAnimation, triggerTunnelUpAnimation, logTunnel,
    hideCursor, stopTransition, set_listeners, set_pending, emit,
    console_warn in *.

(** Case analysis on every conditional of the goal. *)
Ltac split_cases :=
  repeat (simpl in *; case_match; simplify_eq); simpl in *.

(** Unfold the methods of the component but leave the registry rebuild
    folded. *)
Ltac unfold_methods :=
  unfold tick, play, pause, init, onEnterVR, onExitVR, onVisibilityChange,
    cursorClickHandler, mouseMove, mouseDown, mouseUp,
    transitionStep, hoverStep, refreshRegistry, showIndicator,
    confirmTeleport, transition, setupVRCursor, setupCursor,
    initializeTunnelForVR, getTeleportPositionVR,
    getTeleportPositionFromCursor, getTeleportPosition, resolveWith,
    landingAt, getMouseState, set_mousePosition,
    triggerTunnelAnimation, triggerTunnelUpAnimation, logTunnel,
    hideCursor, stopTransition, set_listeners, set_pending, emit,
    console_warn in *.

(** * Properties *)

(** ** Numbers *)

Lemma Qlt_bool_iff a b : Qlt_bool a b = true <-> a < b.
Proof.
  unfold Qlt_bool. rewrite negb_true_iff.
  destruct (Qle_bool b a) eqn:E.
  - apply Qle_bool_iff in E. split; [discriminate | intros Hlt; lra].
  - split; [intros _ | reflexivity].
    destruct (Qlt_le_dec a b) as [Hlt|Hle]; [exact Hlt |].
    apply Qle_bool_iff in Hle. congruence.
Qed.

Lemma Qlt_bool_false_iff a b : Qlt_bool a b = false <-> b <= a.
Proof.
  unfold Qlt_bool. rewrite negb_false_iff. apply Qle_bool_iff.
Qed.

Lemma Qle_bool_false_iff a b : Qle_bool a b = false <-> b < a.
Proof.
  rewrite <- Qlt_bool_iff. unfold Qlt_bool.
  destruct (Qle_bool a b); simpl; split; congruence.
Qed.


(** ** The sort of [intersectObjects] *)

Section Sorting.
Context `{!Three}.






End Sorting.

(** ** Raycast registry *)

Section RegistryFacts.
Context `{!Three}.
Variable data : Data.

(** What a rebuild leaves in [rayCastObjects]: the meshes of the
    collision entities (or the default plane), then the meshes of the
    ignore entities. *)
Lemma updateRaycastObjects_rayCastObjects env st :
  rayCastObjects (registry (updateRaycastObjects data env st)) =
  (if negb (String.eqb (collisionEntities data) "")
   then meshesOf (querySelectorAll env (collisionEntities data))
   else [default defaultCollisionMesh (collisionMesh (registry st))])
  ++ (if negb (String.eqb (ignoreEntities data) "")
      then meshesOf (querySelectorAll env (ignoreEntities data))
      else []).
Proof.
  unfold updateRaycastObjects.
  destruct (negb (String.eqb (collisionEntities data) "")),
           (collisionMesh (registry st)),
           (negb (String.eqb (ignoreEntities data) ""));
    simpl; rewrite ?app_nil_r; reflexivity.
Qed.

Lemma updateRaycastObjects_collisionMesh env st :
  negb (String.eqb (collisionEntities data) "") = false ->
  collisionMesh (registry (updateRaycastObjects data env st)) =
  Some (default defaultCollisionMesh (collisionMesh (registry st))).
Proof.
  unfold updateRaycastObjects. intros ->.
  destruct (collisionMesh (registry st)); reflexivity.
Qed.

(** What a rebuild leaves in [allSceneMeshes]: the visible meshes of the
    scene graph that are not flagged [raycastExclude]. *)
Lemma updateRaycastObjects_allSceneMeshes env st :
  occlusionMeshes (updateRaycastObjects data env st) =
  List.filter
    (fun obj => isMesh obj && visible obj
                && negb (raycastExclude (userDataOf (userData st) obj)))
    (traverse (scene env)).
Proof.
  unfold occlusionMeshes, updateRaycastObjects.
  destruct (negb (String.eqb (collisionEntities data) "")),
           (collisionMesh (registry st)); reflexivity.
Qed.

Lemma foldl_markNavmesh_lookup meshes store k :
  foldl markNavmesh store meshes !! k =
  if bool_decide (k ∈ map oid meshes)
  then Some (mkUserData true true
               (raycastExclude (default noUserData (store !! k))))
  else store !! k.
Proof.
  revert store. induction meshes as [|m r IH]; intros store; cbn [foldl map].
  - rewrite bool_decide_eq_false_2; [reflexivity | apply not_elem_of_nil].
  - rewrite IH. unfold markNavmesh at 1 2. unfold userDataOf.
    destruct (decide (k = oid m)) as [->|Hne].
    + rewrite lookup_insert_eq. cbn [default raycastExclude].
      rewrite (bool_decide_eq_true_2 (oid m ∈ oid m :: map oid r)); [| by left].
      destruct (bool_decide (oid m ∈ map oid r)); reflexivity.
    + rewrite lookup_insert_ne; [| congruence].
      destruct (bool_decide (k ∈ map oid r)) eqn:E.
      * apply bool_decide_eq_true in E.
        rewrite bool_decide_eq_true_2; [reflexivity | by right].
      * apply bool_decide_eq_false in E.
        rewrite bool_decide_eq_false_2; [reflexivity |].
        intros [?|?]%elem_of_cons; [congruence | contradiction].
Qed.

(** The flags of a mesh of a collision entity after a rebuild. *)
Lemma updateRaycastObjects_flags env st m :
  negb (String.eqb (collisionEntities data) "") = true ->
  m ∈ meshesOf (querySelectorAll env (collisionEntities data)) ->
  collidableNavmesh (updateRaycastObjects data env st) m.
Proof.
  intros Hsel Hm. unfold collidableNavmesh, updateRaycastObjects.
  rewrite Hsel. simpl. unfold userDataOf. rewrite foldl_markNavmesh_lookup.
  rewrite bool_decide_eq_true_2; [by split |].
  apply list_elem_of_fmap. by exists m.
Qed.

(** A rebuild changes no flag of an object that is not a mesh of a
    collision entity (in particular, of the meshes of the ignore
    entities that are not also collision meshes). *)
Lemma updateRaycastObjects_other_flags env st o :
  negb (String.eqb (collisionEntities data) "") = true ->
  oid o ∉ map oid (meshesOf (querySelectorAll env (collisionEntities data))) ->
  userDataOf (userData (updateRaycastObjects data env st)) o =
  userDataOf (userData st) o.
Proof.
  intros Hsel Hm. unfold updateRaycastObjects.
  rewrite Hsel. simpl. unfold userDataOf. rewrite foldl_markNavmesh_lookup.
  by rewrite bool_decide_eq_false_2.
Qed.

End RegistryFacts.

(** ** Invariants of the reachable states *)

Section Invariants.
Context `{!Three}.
Variable data : Data.

(** A property of the state that every method of the component
    preserves holds in every reachable state. *)
Lemma dispatch_preserves (P : State -> Prop) target type event env st :
  (forall h s, P s -> P (runHandler data h event env s)) ->
  P st -> P (dispatch data target type event env st).
Proof.
  intros Hh. unfold dispatch.
  generalize (List.filter (listensTo target type) (listeners (outside st))).
  intros ls. revert st. induction ls as [|l ls IH]; intros st Hst; simpl.
  - exact Hst.
  - apply IH, Hh, Hst.
Qed.

Lemma core_updateRaycastObjects env st :
  core (updateRaycastObjects data env st) = core st
  /\ teleportIndicator (updateRaycastObjects data env st) = teleportIndicator st
  /\ vr (updateRaycastObjects data env st) = vr st
  /\ hover (updateRaycastObjects data env st) = hover st
  /\ mouse (updateRaycastObjects data env st) = mouse st.
Proof. unfold core. unfold_component; split_cases; auto 10. Qed.

Lemma core_refreshRegistry time env st :
  core (refreshRegistry data time env st) = core st
  /\ teleportIndicator (refreshRegistry data time env st) = teleportIndicator st
  /\ vr (refreshRegistry data time env st) = vr st
  /\ mouse (refreshRegistry data time env st) = mouse st.
Proof.
  destruct (core_updateRaycastObjects env st) as (Hc & Hi & Hv & _ & Hm).
  unfold refreshRegistry. case_match; [| auto].
  unfold core in *. simpl. auto.
Qed.

Lemma core_resolver env st :
  core (getTeleportPositionFromCursor data env st).2 = core st
  /\ teleportIndicator (getTeleportPositionFromCursor data env st).2
     = teleportIndicator st
  /\ vr (getTeleportPositionFromCursor data env st).2 = vr st
  /\ mouse (getTeleportPositionFromCursor data env st).2 = mouse st.
Proof. unfold core. unfold_component; split_cases; auto. Qed.

Lemma core_showIndicator teleportPos st :
  core (showIndicator data teleportPos st) = core st
  /\ vr (showIndicator data teleportPos st) = vr st
  /\ mouse (showIndicator data teleportPos st) = mouse st.
Proof. unfold core. unfold_component; split_cases; auto. Qed.

Lemma core_hoverStep time env st :
  core (hoverStep data time env st) = core st
  /\ vr (hoverStep data time env st) = vr st
  /\ mouse (hoverStep data time env st) = mouse st.
Proof.
  unfold hoverStep. case_match; [auto |]. case_match; [| apply core_showIndicator].
  destruct (getTeleportPositionFromCursor data env st) as [pos st1] eqn:E.
  destruct (core_resolver env st) as (Hc & _ & Hv & Hm).
  rewrite E in Hc, Hv, Hm. simpl in *.
  destruct (core_showIndicator pos
              (set_hover (mkHoverCache time pos (lastRaycastUpdate (hover st1))) st1))
    as (-> & -> & ->).
  unfold core in *. simpl. auto.
Qed.

Lemma hoverStep_transitioning time env st :
  transitioning (transitionState st) = true -> hoverStep data time env st = st.
Proof. unfold hoverStep. by intros ->. Qed.

Lemma transitionStep_idle deltaTime st :
  transitioning (transitionState st) = false -> transitionStep data deltaTime st = st.
Proof. unfold transitionStep. by intros ->. Qed.

Lemma frame_transitionStep deltaTime st :
  referenceNormal (transitionStep data deltaTime st) = referenceNormal st
  /\ listeners (outside (transitionStep data deltaTime st)) = listeners (outside st)
  /\ pendingSetupCursor (outside (transitionStep data deltaTime st))
     = pendingSetupCursor (outside st)
  /\ teleportIndicator (transitionStep data deltaTime st) = teleportIndicator st
  /\ vr (transitionStep data deltaTime st) = vr st
  /\ mouse (transitionStep data deltaTime st) = mouse st.
Proof. unfold_component; split_cases; auto 10. Qed.

Lemma referenceNormal_runHandler h event env st :
  referenceNormal (runHandler data h event env st) = referenceNormal st.
Proof.
  destruct h; unfold runHandler; unfold_component; split_cases; reflexivity.
Qed.

Lemma referenceNormal_tick time deltaTime env st :
  referenceNormal (tick data time deltaTime env st) = referenceNormal st.
Proof.
  unfold tick.
  destruct (frame_transitionStep deltaTime
              (hoverStep data time env (refreshRegistry data time env st)))
    as (-> & _).
  destruct (core_hoverStep time env (refreshRegistry data time env st)) as [Hh _].
  destruct (core_refreshRegistry time env st) as (Hr & _).
  unfold core in *. congruence.
Qed.

(** The listeners, the mouse state and the indicator after a frame. *)
Lemma tick_frame time deltaTime env st :
  listeners (outside (tick data time deltaTime env st)) = listeners (outside st)
  /\ mouse (tick data time deltaTime env st) = mouse st.
Proof.
  unfold tick.
  destruct (frame_transitionStep deltaTime
              (hoverStep data time env (refreshRegistry data time env st)))
    as (_ & -> & _ & _ & _ & ->).
  destruct (core_hoverStep time env (refreshRegistry data time env st))
    as (Hh & _ & ->).
  destruct (core_refreshRegistry time env st) as (Hr & _ & _ & ->).
  unfold core in *. split; congruence.
Qed.

Lemma referenceNormal_step env i st :
  referenceNormal (step data env i st) = referenceNormal st.
Proof.
  destruct i; unfold step.
  - apply referenceNormal_tick.
  - unfold_component; split_cases; reflexivity.
  - unfold_component; split_cases; reflexivity.
  - unfold_component; split_cases; reflexivity.
  - apply (dispatch_preserves (fun s => referenceNormal s = referenceNormal st));
      [| reflexivity].
    intros h s <-. apply referenceNormal_runHandler.
  - reflexivity.
  - reflexivity.
Qed.

Lemma reachable_referenceNormal st :
  reachable data st -> referenceIsConfigured data st.
Proof.
  unfold referenceIsConfigured.
  induction 1 as [env store rig camera | env i st _ IH].
  - unfold_component; split_cases; reflexivity.
  - by rewrite referenceNormal_step.
Qed.

End Invariants.

(** ** Hit resolver *)

Section Resolver.
Context `{!Three}.
Variable data : Data.

(** With a cursor ray, the resolver is [resolveWith] on that ray. *)
Lemma resolver_with_ray env st rc :
  cursorRay env st = Some rc ->
  (getTeleportPositionFromCursor data env st).1 = (resolveWith data rc st).1
  /\ tempVector3 (getTeleportPositionFromCursor data env st).2
     = tempVector3 (resolveWith data rc st).2.
Proof.
  unfold cursorRay, getTeleportPositionFromCursor. intros Hray.
  destruct (cursorRaycaster (cursorLink st)); simpl in *.
  - by rewrite Hray.
  - destruct (cursorEl (cursorLink st)); simpl in *; [| discriminate].
    rewrite Hray. unfold resolveWith, landingAt, isValidNormalsAngle.
    split_cases; auto.
Qed.


Lemma isValidNormalsAngle_iff st normal obj :
  isValidNormalsAngle data st normal obj = true <->
  RAD2DEG * angleTo (referenceNormal st)
              (applyNormalMatrix normal (getNormalMatrix (matrixWorld obj)))
  <= landingMaxAngle data.
Proof. unfold isValidNormalsAngle. apply Qle_bool_iff. Qed.

(** A first hit that is not flagged as navmesh ends the query. *)
Lemma resolver_blocked env st rc firstHit :
  cursorRay env st = Some rc ->
  nearestSceneHit rc st = Some firstHit ->
  isNavmesh (userDataOf (userData st) (object firstHit)) = false ->
  (getTeleportPositionFromCursor data env st).1 = None.
Proof.
  intros Hray Hhit Hnav.
  apply resolver_with_ray in Hray as [-> _].
  unfold resolveWith, nearestSceneHit, occlusionMeshes in *.
  destruct (Nat.eqb (length (rayCastObjects (registry st))) 0); [reflexivity |].
  destruct (intersectObjects rc (default [] (allSceneMeshes (registry st))) true)
    as [|x rest]; [reflexivity |].
  simpl in Hhit. injection Hhit as ->. by rewrite Hnav.
Qed.




End Resolver.

Section ResolverScenes.
Import Scenes.
#[local] Existing Instance flat.





End ResolverScenes.

(** ** Registry rebuilds *)

Section Rebuild.
Context `{!Three}.
Variable data : Data.

Lemma foldl_markNavmesh_twice meshes (store : gmap ObjId UserData) :
  foldl markNavmesh (foldl markNavmesh store meshes) meshes
  = foldl markNavmesh store meshes.
Proof.
  apply map_eq. intros k. rewrite (foldl_markNavmesh_lookup meshes (foldl _ _ _)).
  rewrite foldl_markNavmesh_lookup.
  destruct (bool_decide (k ∈ map oid meshes)); reflexivity.
Qed.

Lemma updateRaycastObjects_userData env st :
  userData (updateRaycastObjects data env st) =
  if negb (String.eqb (collisionEntities data) "")
  then foldl markNavmesh (userData st)
             (meshesOf (querySelectorAll env (collisionEntities data)))
  else match collisionMesh (registry st) with
       | Some _ => userData st
       | None => <[CollisionMeshId := mkUserData true false false]> (userData st)
       end.
Proof.
  unfold updateRaycastObjects.
  destruct (negb (String.eqb (collisionEntities data) "")),
           (collisionMesh (registry st)); reflexivity.
Qed.

(** C9. Rebuilding the registry twice in a row on an unchanged scene
    gives the collidable set of the first rebuild: [rayCastObjects] holds
    the same objects (in the same order), and the flags of every object
    are those the first rebuild left. *)
Theorem rebuild_is_idempotent env st :
  rayCastObjects
    (registry (updateRaycastObjects data env (updateRaycastObjects data env st)))
  = rayCastObjects (registry (updateRaycastObjects data env st))
  /\ userData (updateRaycastObjects data env (updateRaycastObjects data env st))
     = userData (updateRaycastObjects data env st).
Proof.
  split.
  - rewrite !updateRaycastObjects_rayCastObjects.
    destruct (negb (String.eqb (collisionEntities data) "")) eqn:E;
      [reflexivity |].
    by rewrite (updateRaycastObjects_collisionMesh data env st E).
  - rewrite (updateRaycastObjects_userData env (updateRaycastObjects _ _ _)).
    rewrite updateRaycastObjects_userData.
    destruct (negb (String.eqb (collisionEntities data) "")) eqn:E.
    + apply foldl_markNavmesh_twice.
    + by rewrite (updateRaycastObjects_collisionMesh data env st E).
Qed.

(** C8, as the code has it. The meshes of the entities matched by
    [ignoreEntities] are put into [rayCastObjects] by a rebuild, which
    leaves their flags as they were unless they are collision meshes
    too; such a mesh, when it is not flagged as navmesh and is the
    nearest hit of the cursor ray, blocks the landing. *)
Theorem ignored_entities_block_landing env st m :
  negb (String.eqb (collisionEntities data) "") = true ->
  negb (String.eqb (ignoreEntities data) "") = true ->
  m ∈ meshesOf (querySelectorAll env (ignoreEntities data)) ->
  oid m ∉ map oid (meshesOf (querySelectorAll env (collisionEntities data))) ->
  isNavmesh (userDataOf (userData st) m) = false ->
  m ∈ rayCastObjects (registry (updateRaycastObjects data env st))
  /\ userDataOf (userData (updateRaycastObjects data env st)) m
     = userDataOf (userData st) m
  /\ forall env' rc firstHit,
       cursorRay env' (updateRaycastObjects data env st) = Some rc ->
       nearestSceneHit rc (updateRaycastObjects data env st) = Some firstHit ->
       oid (object firstHit) = oid m ->
       (getTeleportPositionFromCursor data env' (updateRaycastObjects data env st)).1
       = None.
Proof.
  intros Hcol Hign Hm Hnot Hnav.
  pose proof (updateRaycastObjects_other_flags data env st m Hcol Hnot) as Hflags.
  repeat split.
  - rewrite updateRaycastObjects_rayCastObjects, Hign.
    apply elem_of_app. by right.
  - exact Hflags.
  - intros env' rc firstHit Hray Hhit Hid.
    eapply resolver_blocked; [exact Hray | exact Hhit |].
    unfold userDataOf in *. rewrite Hid. by rewrite Hflags.
Qed.

End Rebuild.

Section RebuildScenes.
Import Scenes.
#[local] Existing Instance flat.

Lemma ignored_entities_block_landing_witness :
  boxMesh ∈ rayCastObjects
              (registry (updateRaycastObjects ignoringWalls boxOverFloor underWall))
  /\ userDataOf (userData (updateRaycastObjects ignoringWalls boxOverFloor underWall))
                boxMesh
     = userDataOf (userData underWall) boxMesh
  /\ forall env' rc firstHit,
       cursorRay env' (updateRaycastObjects ignoringWalls boxOverFloor underWall)
       = Some rc ->
       nearestSceneHit rc (updateRaycastObjects ignoringWalls boxOverFloor underWall)
       = Some firstHit ->
       oid (object firstHit) = oid boxMesh ->
       (getTeleportPositionFromCursor ignoringWalls env'
          (updateRaycastObjects ignoringWalls boxOverFloor underWall)).1
       = None.
Proof.
  apply (ignored_entities_block_landing ignoringWalls boxOverFloor underWall boxMesh).
  - reflexivity.
  - reflexivity.
  - vm_compute. by left.
  - vm_compute. by intros [?|?%elem_of_nil]%elem_of_cons.
  - vm_compute; reflexivity.
Defined.

(** C8 as stated fails: the box is matched by [ignoreEntities], it is in
    [rayCastObjects] after the rebuild of [init], and the cursor ray,
    which meets the box and then the floor (a collidable navmesh within
    the angle), resolves to no landing. *)
Lemma ignored_wall_counterexample :
  In boxMesh (meshesOf (querySelectorAll boxOverFloor (ignoreEntities ignoringWalls)))
  /\ In boxMesh (rayCastObjects (registry underWall))
  /\ cursorRay boxOverFloor underWall = Some downRay
  /\ sceneHits downRay underWall = [floorHit; boxHit]
  /\ collidableNavmesh underWall (object floorHit)
  /\ landingAngle (landingNormal ignoringWalls) floorHit
     <= landingMaxAngle ignoringWalls
  /\ (getTeleportPositionFromCursor ignoringWalls boxOverFloor underWall).1 = None.
Proof.
  repeat split; vm_compute; (reflexivity || discriminate || auto).
Qed.

End RebuildScenes.

(** ** Easing *)

Lemma easeInOutQuad_spec_everywhere t :
  easeInOutQuad t == symmetricQuadEase_spec t.
Proof.
  unfold easeInOutQuad, symmetricQuadEase_spec.
  destruct (Qlt_bool t (1 # 2)); [reflexivity | field].
Qed.

Section EasingClaim.
Import PrimFloat.
#[local] Set Warnings "-inexact-float".

(** C6, as the code has it. In exact arithmetic the implemented ease,
    [2t^2] below one half and [(4 - 2t) t - 1] from there on, has on
    [[0, 1]] the values of the specified one, [2t^2] below one half and
    [1 - (-2t + 2)^2 / 2] from there on. In binary64 the two are the same
    computation below one half, and they agree at one half and at 1;
    elsewhere they agree up to rounding only. *)
Theorem easeInOutQuad_is_symmetric_quadratic :
  (forall t : Q, 0 <= t <= 1 -> easeInOutQuad t == symmetricQuadEase_spec t)
  /\ (forall t : float,
        (t <? 0.5)%float = true ->
        Binary64.easeInOutQuad t = Binary64.symmetricQuadEase_spec t)
  /\ Binary64.easeInOutQuad 0.5 = Binary64.symmetricQuadEase_spec 0.5
  /\ Binary64.easeInOutQuad 1 = Binary64.symmetricQuadEase_spec 1.
Proof.
  split; [intros t _; apply easeInOutQuad_spec_everywhere |].
  split; [| split; vm_compute; reflexivity].
  intros t Ht. unfold Binary64.easeInOutQuad, Binary64.symmetricQuadEase_spec.
  by rewrite Ht.
Qed.

Lemma easeInOutQuad_is_symmetric_quadratic_witness :
  easeInOutQuad (7 # 10) == symmetricQuadEase_spec (7 # 10).
Proof.
  apply (proj1 easeInOutQuad_is_symmetric_quadratic (7 # 10)).
  split; vm_compute; discriminate.
Defined.

(** C6 as stated fails on the numbers of the program: at the double
    nearest to 0.7, which lies in [[0, 1]], the code computes
    0.8199999999999998 and the specified formula 0.82. *)
Lemma binary64_ease_counterexample :
  (0 <=? 0.7)%float = true
  /\ (0.7 <=? 1)%float = true
  /\ Binary64.easeInOutQuad 0.7 = 0.8199999999999998%float
  /\ Binary64.symmetricQuadEase_spec 0.7 = 0.82%float
  /\ (Binary64.easeInOutQuad 0.7 =? Binary64.symmetricQuadEase_spec 0.7)%float
     = false.
Proof. repeat split; vm_compute; reflexivity. Qed.

End EasingClaim.

Lemma easeInOutQuad_zero t : t == 0 -> easeInOutQuad t == 0.
Proof.
  intros Ht. unfold easeInOutQuad.
  destruct (Qlt_bool t (1 # 2)) eqn:E.
  - rewrite Ht. reflexivity.
  - apply Qlt_bool_false_iff in E. lra.
Qed.

(** Interpolation starts at the first vector. *)
Lemma lerpVectors_start v1 v2 alpha : alpha == 0 -> lerpVectors v1 v2 alpha =v= v1.
Proof.
  intros Ha. unfold veq, lerpVectors. simpl. rewrite Ha. repeat split; ring.
Qed.


(** ** Transition controller *)

Section TransitionFacts.
Context `{!Three}.
Variable data : Data.

(** [transitionStep] reads and writes the transition, the rig, the
    emitted events and the tunnel only. *)
Lemma transitionStep_respects deltaTime st1 st2 :
  transitionState st1 = transitionState st2 ->
  camRig st1 = camRig st2 ->
  emitted (outside st1) = emitted (outside st2) ->
  transitionState (transitionStep data deltaTime st1)
  = transitionState (transitionStep data deltaTime st2)
  /\ camRig (transitionStep data deltaTime st1)
     = camRig (transitionStep data deltaTime st2)
  /\ emitted (outside (transitionStep data deltaTime st1))
     = emitted (outside (transitionStep data deltaTime st2)).
Proof.
  intros Ht Hr He. unfold_component. rewrite Ht, Hr.
  split_cases; rewrite ?He; auto.
Qed.

(** While a transition is in progress, a frame is [transitionStep] as
    far as the transition, the rig and the emitted events go. *)
Lemma tick_transitioning time deltaTime env st :
  transitioning (transitionState st) = true ->
  transitionState (tick data time deltaTime env st)
  = transitionState (transitionStep data deltaTime st)
  /\ camRig (tick data time deltaTime env st)
     = camRig (transitionStep data deltaTime st)
  /\ emitted (outside (tick data time deltaTime env st))
     = emitted (outside (transitionStep data deltaTime st)).
Proof.
  intros Htr. unfold tick.
  destruct (core_refreshRegistry data time env st) as (Hc & _).
  unfold core in Hc. injection Hc as _ _ He _ Ht Hr.
  rewrite hoverStep_transitioning by (by rewrite Ht).
  by apply transitionStep_respects.
Qed.

(** An idle frame starts no transition, moves no rig and emits nothing. *)
Lemma tick_idle time deltaTime env st :
  transitioning (transitionState st) = false ->
  transitionState (tick data time deltaTime env st) = transitionState st
  /\ camRig (tick data time deltaTime env st) = camRig st
  /\ emitted (outside (tick data time deltaTime env st)) = emitted (outside st).
Proof.
  intros Htr. unfold tick.
  destruct (core_refreshRegistry data time env st) as (Hc & _).
  destruct (core_hoverStep data time env (refreshRegistry data time env st))
    as (Hh & _).
  rewrite Hc in Hh. unfold core in Hh. injection Hh as _ _ He _ Ht Hr.
  rewrite transitionStep_idle by (by rewrite Ht). auto.
Qed.

Lemma frames_idle fs st :
  transitioning (transitionState st) = false ->
  transitionState (run data (frames fs) st) = transitionState st
  /\ camRig (run data (frames fs) st) = camRig st
  /\ emitted (outside (run data (frames fs) st)) = emitted (outside st).
Proof.
  revert st. induction fs as [|[env [time deltaTime]] fs IH]; intros st Htr.
  - by simpl.
  - unfold run, frames in *. simpl.
    destruct (tick_idle time deltaTime env st Htr) as (Ht & Hr & He).
    destruct (IH (tick data time deltaTime env st)) as (Ht' & Hr' & He');
      [by rewrite Ht |].
    rewrite Ht', Hr', He'. auto.
Qed.

(** What one step of a transition in progress does. *)
Lemma transitionStep_running deltaTime st :
  transitioning (transitionState st) = true ->
  let t := transitionState st in
  let st' := transitionStep data deltaTime st in
  let progress := transitionProgress t + deltaTime * transitionSpeed data in
  transitionProgress (transitionState st') = progress
  /\ transitionCamPosEnd (transitionState st') = transitionCamPosEnd t
  /\ transitionRotEnd (transitionState st') = transitionRotEnd t
  /\ (progress < 1 ->
      transitioning (transitionState st') = true
      /\ position (camRig st')
         = lerpVectors (transitionCamPosStart t) (transitionCamPosEnd t)
                       (easeInOutQuad progress)
      /\ quaternion (camRig st')
         = (if alignToSurface data
            then slerpQuaternions (transitionRotStart t) (transitionRotEnd t)
                   (Math_min (easeInOutQuad progress * rotationSmoothing data) 1)
            else quaternion (camRig st))
      /\ emitted (outside st') = emitted (outside st))
  /\ (1 <= progress ->
      transitioning (transitionState st') = false
      /\ position (camRig st') = transitionCamPosEnd t
      /\ quaternion (camRig st')
         = (if alignToSurface data then transitionRotEnd t
            else quaternion (camRig st))
      /\ emitted (outside st') = emitted (outside st) ++ ["navigation-end"]).
Proof.
  intros Htr. unfold transitionStep. rewrite Htr.
  destruct (Qle_bool 1 _) eqn:E.
  - apply Qle_bool_iff in E. unfold_component.
    split_cases; repeat split; auto; intros; lra.
  - apply Qle_bool_false_iff in E. simpl.
    repeat split; auto; intros; try lra; by destruct (alignToSurface data).
Qed.

End TransitionFacts.

(** ** Invariants of the transition and of the wiring *)

Section Wiring.
Context `{!Three}.
Variable data : Data.

Lemma elem_of_addEventListener l x ls :
  l ∈ addEventListener x ls -> l = x \/ l ∈ ls.
Proof.
  unfold addEventListener. case_bool_decide; [auto |].
  rewrite elem_of_app, list_elem_of_singleton. tauto.
Qed.

Lemma elem_of_removeEventListener l x ls :
  l ∈ removeEventListener x ls -> l ∈ ls.
Proof.
  unfold removeEventListener. rewrite !list_elem_of_In, filter_In. tauto.
Qed.

Lemma clickListener_wired : clickListener ∈ wiring.
Proof. apply list_elem_of_In. vm_compute. auto 10. Qed.

Lemma keydownListener_wired : keydownListener ∈ wiring.
Proof. apply list_elem_of_In. vm_compute. auto 10. Qed.

Lemma wiring_has_no_mouse_handler l :
  l ∈ wiring -> isMouseHandler (l_handler l) = false.
Proof.
  intros Hl. apply list_elem_of_In in Hl. simpl in Hl.
  repeat (destruct Hl as [<-|Hl]; [reflexivity |]). contradiction.
Qed.

Ltac wired_tac :=
  repeat match goal with
    | H : _ ∈ addEventListener _ _ |- _ =>
        apply elem_of_addEventListener in H as [->|H]
    | H : _ ∈ removeEventListener _ _ |- _ =>
        apply elem_of_removeEventListener in H
    end;
  auto using clickListener_wired, keydownListener_wired.

Lemma wired_setupCursor env st : wired st -> wired (setupCursor env st).
Proof.
  unfold wired. intros Hw l. unfold_component. split_cases; intros Hl; wired_tac.
Qed.

(** Dispatching runs listeners of [wiring] only. *)
Lemma dispatch_wired (P : State -> Prop) target type event env st :
  wired st ->
  (forall l s, l ∈ wiring -> listensTo target type l = true ->
               P s -> P (runHandler data (l_handler l) event env s)) ->
  P st -> P (dispatch data target type event env st).
Proof.
  intros Hw Hh. unfold dispatch.
  assert (Forall (fun l => l ∈ wiring /\ listensTo target type l = true)
            (List.filter (listensTo target type) (listeners (outside st)))) as Hall.
  { apply Forall_forall. intros l Hl.
    apply list_elem_of_In, filter_In in Hl as [Hl Hm].
    split; [apply Hw, list_elem_of_In, Hl | exact Hm]. }
  revert Hall. generalize (List.filter (listensTo target type) (listeners (outside st))).
  intros ls Hall. clear Hw. revert st. induction Hall as [|l ls [Hl Hm] _ IH];
    intros st Hst; simpl.
  - exact Hst.
  - apply IH. by apply Hh.
Qed.

Lemma wired_runHandler h event env st :
  wired st -> wired (runHandler data h event env st).
Proof.
  unfold wired. intros Hw l.
  destruct h; unfold runHandler; unfold_component; split_cases;
    intros Hl; wired_tac.
Qed.

Lemma wired_step env i st : wired st -> wired (step data env i st).
Proof.
  intros Hw. destruct i; unfold step.
  - unfold wired. by destruct (tick_frame data time deltaTime env st) as [-> _].
  - revert Hw. unfold wired. intros Hw l. unfold_component.
    split_cases; intros Hl; wired_tac.
  - revert Hw. unfold wired. intros Hw l. unfold_component.
    split_cases; intros Hl; wired_tac.
  - case_match; [exact Hw |]. apply wired_setupCursor. exact Hw.
  - apply dispatch_preserves; [| exact Hw]. intros h s. apply wired_runHandler.
  - exact Hw.
  - exact Hw.
Qed.

Lemma reachable_wired st : reachable data st -> wired st.
Proof.
  induction 1 as [env store rig camera | env i st _ IH].
  - unfold wired. intros l. unfold_component.
    split_cases; intros Hl; wired_tac;
      apply list_elem_of_In in Hl; apply list_elem_of_In; simpl in *; tauto.
  - by apply wired_step.
Qed.

End Wiring.

Section Reachability.
Context `{!Three}.
Variable data : Data.

Lemma rotEndSettled_runHandler h event env st :
  rotEndSettled data st -> rotEndSettled data (runHandler data h event env st).
Proof.
  unfold rotEndSettled. intros Hinv Halign. specialize (Hinv Halign).
  destruct h; unfold runHandler; unfold_component; rewrite ?Halign;
    split_cases; auto; congruence.
Qed.

Lemma rotEndSettled_tick time deltaTime env st :
  rotEndSettled data st -> rotEndSettled data (tick data time deltaTime env st).
Proof.
  unfold rotEndSettled. intros Hinv Halign Htr'.
  destruct (transitioning (transitionState st)) eqn:Htr.
  - destruct (tick_transitioning data time deltaTime env st Htr) as (Ht & Hr & _).
    rewrite Ht, Hr. rewrite Ht in Htr'.
    destruct (transitionStep_running data deltaTime st Htr)
      as (Hp & _ & Hend & Hrun & Hstop).
    destruct (Qlt_le_dec (transitionProgress (transitionState st)
                          + deltaTime * transitionSpeed data) 1) as [Hlt|Hle].
    + destruct (Hrun Hlt) as (_ & _ & Hq & _).
      rewrite Hend, Hq, Halign. auto.
    + destruct (Hstop Hle) as (Hoff & _). congruence.
  - destruct (tick_idle data time deltaTime env st Htr) as (Ht & _). congruence.
Qed.

Lemma rotEndSettled_step env i st :
  rotEndSettled data st -> rotEndSettled data (step data env i st).
Proof.
  intros Hinv. destruct i; unfold step.
  - by apply rotEndSettled_tick.
  - revert Hinv. unfold rotEndSettled. intros Hinv Halign. specialize (Hinv Halign).
    unfold_component. split_cases; auto.
  - revert Hinv. unfold rotEndSettled. intros Hinv Halign. specialize (Hinv Halign).
    unfold_component. split_cases; auto; congruence.
  - revert Hinv. unfold rotEndSettled. intros Hinv Halign. specialize (Hinv Halign).
    unfold_component. split_cases; auto.
  - apply dispatch_preserves; [| exact Hinv].
    intros h s. apply rotEndSettled_runHandler.
  - exact Hinv.
  - exact Hinv.
Qed.

Lemma reachable_rotEndSettled st : reachable data st -> rotEndSettled data st.
Proof.
  induction 1 as [env store rig camera | env i st _ IH].
  - unfold rotEndSettled. intros _. unfold_component. split_cases; congruence.
  - by apply rotEndSettled_step.
Qed.

(** The handlers of [wiring] leave the mouse state alone, and only the
    cursor click handler emits. *)
Lemma wiring_runHandler l event env st :
  l ∈ wiring ->
  mouse (runHandler data (l_handler l) event env st) = mouse st
  /\ (l <> clickListener ->
      emitted (outside (runHandler data (l_handler l) event env st))
      = emitted (outside st)).
Proof.
  intros Hl. apply list_elem_of_In in Hl. simpl in Hl.
  repeat (destruct Hl as [<-|Hl]); try contradiction;
    (split; [| intros Hne; try (by destruct Hne)]);
    unfold runHandler; unfold_component; split_cases; reflexivity.
Qed.

Lemma mouseUntouched_step env i st :
  wired st -> mouseUntouched st -> mouseUntouched (step data env i st).
Proof.
  unfold mouseUntouched. intros Hw Hm. destruct i; unfold step.
  - by destruct (tick_frame data time deltaTime env st) as [_ ->].
  - revert Hm. unfold_component. split_cases; auto.
  - revert Hm. unfold_component. split_cases; auto.
  - revert Hm. unfold_component. split_cases; auto.
  - apply (dispatch_wired data
             (fun s => mousePosition (mouse s) = vec2 0 0
                       /\ mouseOriginalPosition (mouse s) = vec2 0 0));
      [exact Hw | | exact Hm].
    intros l s Hl _ Hs.
    by destruct (wiring_runHandler l event env s Hl) as [-> _].
  - exact Hm.
  - exact Hm.
Qed.

Lemma reachable_mouseUntouched st : reachable data st -> mouseUntouched st.
Proof.
  induction 1 as [env store rig camera | env i st Hr IH].
  - unfold mouseUntouched. unfold_component. split_cases; auto.
  - apply mouseUntouched_step; [by apply reachable_wired in Hr | exact IH].
Qed.

Lemma emittedCount_app name st st' more :
  emitted (outside st') = emitted (outside st) ++ more ->
  emittedCount name st'
  = (emittedCount name st + length (List.filter (String.eqb name) more))%nat.
Proof.
  unfold emittedCount. intros ->. by rewrite List.filter_app, length_app.
Qed.

Lemma emittedCount_same name st st' :
  emitted (outside st') = emitted (outside st) ->
  emittedCount name st' = emittedCount name st.
Proof. unfold emittedCount. by intros ->. Qed.

(** A frame emits nothing, or ["navigation-end"] once. *)
Lemma tick_emitted time deltaTime env st :
  emitted (outside (tick data time deltaTime env st)) = emitted (outside st)
  \/ emitted (outside (tick data time deltaTime env st))
     = emitted (outside st) ++ ["navigation-end"].
Proof.
  destruct (transitioning (transitionState st)) eqn:Htr.
  - destruct (tick_transitioning data time deltaTime env st Htr) as (_ & _ & ->).
    destruct (transitionStep_running data deltaTime st Htr)
      as (_ & _ & _ & Hrun & Hstop).
    destruct (Qlt_le_dec (transitionProgress (transitionState st)
                          + deltaTime * transitionSpeed data) 1) as [Hlt|Hle].
    + left. by destruct (Hrun Hlt) as (_ & _ & _ & ->).
    + right. by destruct (Hstop Hle) as (_ & _ & _ & ->).
  - left. by destruct (tick_idle data time deltaTime env st Htr) as (_ & _ & ->).
Qed.

(** Only a click on the a-cursor entity starts a transition. *)
Lemma navigation_start_needs_click env i st :
  wired st ->
  (forall event, i <> Dispatch CursorEl "click" event) ->
  emittedCount "navigation-start" (step data env i st)
  = emittedCount "navigation-start" st.
Proof.
  intros Hw Hi. destruct i; unfold step.
  - destruct (tick_emitted time deltaTime env st) as [E|E].
    + by apply emittedCount_same.
    + rewrite (emittedCount_app _ _ _ _ E). simpl. lia.
  - apply emittedCount_same. unfold_component. split_cases; reflexivity.
  - apply emittedCount_same. unfold_component. split_cases; reflexivity.
  - apply emittedCount_same. unfold_component. split_cases; reflexivity.
  - apply (dispatch_wired data
             (fun s => emittedCount "navigation-start" s
                       = emittedCount "navigation-start" st));
      [exact Hw | | reflexivity].
    intros l s Hl Hm <-. apply emittedCount_same.
    destruct (wiring_runHandler l event env s Hl) as [_ He]. apply He.
    intros ->. unfold listensTo, clickListener in Hm.
    cbn [l_target l_type] in Hm.
    apply andb_true_iff in Hm as [Ht Hty].
    apply bool_decide_eq_true in Ht. apply String.eqb_eq in Hty.
    subst. by apply (Hi event).
  - reflexivity.
  - reflexivity.
Qed.

(** An event that no listener of [wiring] is registered for changes
    nothing. *)
Lemma dispatch_unheard target type event env st :
  wired st ->
  Forall (fun l => listensTo target type l = false) wiring ->
  dispatch data target type event env st = st.
Proof.
  intros Hw Hnone. unfold dispatch.
  assert (List.filter (listensTo target type) (listeners (outside st)) = []) as ->;
    [| reflexivity].
  unfold wired in Hw. rewrite Forall_forall in Hnone.
  induction (listeners (outside st)) as [|l ls IH]; [reflexivity |]. simpl.
  rewrite (Hnone l) by (apply Hw; by left).
  apply IH. intros x Hx. apply Hw. by right.
Qed.

End Reachability.

(** ** The claims about the transition controller *)

Section TransitionClaims.
Context `{!Three}.
Variable data : Data.

(** C4. While a transition is in progress, a frame with a non-negative
    frame time and a positive [transitionSpeed] does not decrease
    [transitionProgress] (it adds [deltaTime * transitionSpeed]); as long
    as the progress stays below 1 the transition goes on and nothing is
    emitted; on the frame where it reaches 1 the transition ends, the
    rig position is [transitionCamPosEnd], the rig orientation is
    [transitionRotEnd], ["navigation-end"] is emitted once, and the
    frames that follow emit nothing. *)
Theorem transition_progress_and_end time deltaTime env st :
  reachable data st ->
  transitioning (transitionState st) = true ->
  0 <= deltaTime ->
  0 < transitionSpeed data ->
  transitionProgress (transitionState (tick data time deltaTime env st))
  = transitionProgress (transitionState st) + deltaTime * transitionSpeed data
  /\ transitionProgress (transitionState st)
     <= transitionProgress (transitionState (tick data time deltaTime env st))
  /\ (transitionProgress (transitionState (tick data time deltaTime env st)) < 1 ->
      transitioning (transitionState (tick data time deltaTime env st)) = true
      /\ emitted (outside (tick data time deltaTime env st)) = emitted (outside st))
  /\ (1 <= transitionProgress (transitionState (tick data time deltaTime env st)) ->
      transitioning (transitionState (tick data time deltaTime env st)) = false
      /\ position (camRig (tick data time deltaTime env st))
         = transitionCamPosEnd (transitionState st)
      /\ quaternion (camRig (tick data time deltaTime env st))
         = transitionRotEnd (transitionState st)
      /\ emitted (outside (tick data time deltaTime env st))
         = emitted (outside st) ++ ["navigation-end"]
      /\ forall fs,
           emitted (outside (run data (frames fs) (tick data time deltaTime env st)))
           = emitted (outside (tick data time deltaTime env st))).
Proof.
  intros Hreach Htr Hdt Hspeed.
  pose proof (reachable_rotEndSettled data st Hreach) as Hrot.
  destruct (tick_transitioning data time deltaTime env st Htr) as (Ht & Hr & He).
  destruct (transitionStep_running data deltaTime st Htr)
    as (Hp & _ & _ & Hrun & Hstop).
  assert (0 <= deltaTime * transitionSpeed data) as Hstep
    by (apply Qmult_le_0_compat; lra).
  assert (transitionProgress (transitionState (tick data time deltaTime env st))
          = transitionProgress (transitionState st)
            + deltaTime * transitionSpeed data) as Hprog
    by (by rewrite Ht).
  rewrite Hprog.
  split; [reflexivity |]. split; [lra |]. split.
  - intros Hlt. destruct (Hrun Hlt) as (? & _ & _ & ?).
    rewrite Ht, He. auto.
  - intros Hle. destruct (Hstop Hle) as (Hoff & Hpos & Hq & Hem).
    assert (transitioning (transitionState (tick data time deltaTime env st))
            = false) as Hidle by (by rewrite Ht).
    repeat split; try (rewrite ?Hr, ?He; assumption).
    + rewrite Hr, Hq. destruct (alignToSurface data) eqn:Halign; [reflexivity |].
      symmetry. by apply Hrot.
    + intros fs. by apply frames_idle.
Qed.

(** C5. [transition], called in any state and so also while a
    transition is in progress, takes the pose the rig has at that moment
    as the start pose and the new target as the end pose, resets the
    progress and leaves the rig where it is. The next frame puts the rig
    on the segment from that pose to the new target, at the eased
    progress of that single frame; with a frame time of 0 the rig does
    not move. The start pose of the transition that was replaced plays no
    part. *)
Theorem transition_preempts positionData targetQuaternion time deltaTime env st :
  0 + deltaTime * transitionSpeed data < 1 ->
  let target :=
    match positionData with
    | PosLanding l => landing_point l
    | PosVector v => v
    end in
  let st' := transition data positionData targetQuaternion st in
  transitioning (transitionState st') = true
  /\ transitionProgress (transitionState st') = 0
  /\ transitionCamPosStart (transitionState st') = position (camRig st)
  /\ transitionRotStart (transitionState st') = quaternion (camRig st)
  /\ transitionCamPosEnd (transitionState st') = target
  /\ (forall q, targetQuaternion = Some q -> transitionRotEnd (transitionState st') = q)
  /\ camRig st' = camRig st
  /\ position (camRig (tick data time deltaTime env st'))
     = lerpVectors (position (camRig st)) target
                   (easeInOutQuad (0 + deltaTime * transitionSpeed data))
  /\ position (camRig (tick data time 0 env st')) =v= position (camRig st).
Proof.
  intros Hlt target st'.
  assert (transitionState st'
          = mkTransition true 0 (position (camRig st)) target (quaternion (camRig st))
              (transitionRotEnd (transitionState st'))
              (targetSurfaceNormal (transitionState st'))
          /\ camRig st' = camRig st
          /\ (forall q, targetQuaternion = Some q ->
                        transitionRotEnd (transitionState st') = q)) as (Ht & Hr & Hq).
  { subst st' target. unfold_component.
    destruct positionData, targetQuaternion; split_cases;
      repeat split; auto; congruence. }
  assert (transitioning (transitionState st') = true) as Htr by by rewrite Ht.
  rewrite Ht. simpl. split_and!; auto.
  - destruct (tick_transitioning data time deltaTime env st' Htr) as (_ & -> & _).
    destruct (transitionStep_running data deltaTime st' Htr)
      as (_ & _ & _ & Hrun & _).
    rewrite Ht in Hrun. simpl in Hrun. by destruct (Hrun Hlt) as (_ & -> & _).
  - destruct (tick_transitioning data time 0 env st' Htr) as (_ & -> & _).
    destruct (transitionStep_running data 0 st' Htr) as (_ & _ & _ & Hrun & _).
    rewrite Ht in Hrun. simpl in Hrun.
    destruct Hrun as (_ & -> & _); [lra |].
    apply lerpVectors_start, easeInOutQuad_zero. ring.
Qed.

Lemma confirmTeleport_indicator l st :
  shown (teleportIndicator (confirmTeleport data l st))
  = shown (teleportIndicator st)
  /\ position (teleportIndicator (confirmTeleport data l st)) = landing_point l
  /\ transitioning (transitionState (confirmTeleport data l st)) = true.
Proof. unfold_component. split_cases; auto. Qed.

(** C7, as the code has it. While a transition is in progress, a frame
    leaves the teleport indicator exactly as it is: it is neither hidden
    nor recomputed, so a frame changes it only while idle. A click that
    resolves to a landing, in whatever state and so from the idle hover
    preview too, starts a transition, moves the indicator to the landing
    point and keeps its visibility; the frame that follows leaves the
    indicator there, visible if the hover preview had shown it. *)
Theorem indicator_is_frozen_while_transitioning time deltaTime env env' st :
  (transitioning (transitionState st) = true ->
   teleportIndicator (tick data time deltaTime env st) = teleportIndicator st)
  /\ (forall l st1,
        getTeleportPositionFromCursor data env st = (Some l, st1) ->
        transitioning (transitionState (cursorClickHandler data env st)) = true
        /\ position (teleportIndicator (cursorClickHandler data env st))
           = landing_point l
        /\ shown (teleportIndicator (cursorClickHandler data env st))
           = shown (teleportIndicator st)
        /\ teleportIndicator
             (tick data time deltaTime env' (cursorClickHandler data env st))
           = teleportIndicator (cursorClickHandler data env st)).
Proof.
  assert (forall e s, transitioning (transitionState s) = true ->
            teleportIndicator (tick data time deltaTime e s) = teleportIndicator s)
    as Hfrozen.
  { intros e s Htr. unfold tick.
    destruct (frame_transitionStep data deltaTime
                (hoverStep data time e (refreshRegistry data time e s)))
      as (_ & _ & _ & -> & _).
    destruct (core_refreshRegistry data time e s) as (Hc & Hi & _).
    rewrite hoverStep_transitioning; [exact Hi |].
    unfold core in Hc. injection Hc as _ _ _ _ Ht _. by rewrite Ht. }
  split; [apply Hfrozen |].
  intros l st1 Hl.
  destruct (core_resolver data env st) as (_ & Hi & _). rewrite Hl in Hi. simpl in Hi.
  destruct (confirmTeleport_indicator l st1) as (Hs & Hp & Ht).
  unfold cursorClickHandler. rewrite Hl.
  split; [exact Ht |]. split; [exact Hp |].
  split; [by rewrite Hs, Hi |]. by apply Hfrozen.
Qed.

(** C10. In every reachable state no registered listener calls
    [mouseMove], [mouseDown] or [mouseUp]; the recorded mouse positions
    are still the initial ones; dispatching a mouse or touch event on any
    target changes nothing; and an input that starts a transition is a
    click on the a-cursor entity. *)
Theorem mouse_adapter_is_unreachable st :
  reachable data st ->
  (forall l, l ∈ listeners (outside st) -> isMouseHandler (l_handler l) = false)
  /\ mouseUntouched st
  /\ (forall env target type event,
        type ∈ ["mousedown"; "mousemove"; "mouseup";
                "touchstart"; "touchmove"; "touchend"] ->
        dispatch data target type event env st = st)
  /\ (forall env i,
        emittedCount "navigation-start" (step data env i st)
        <> emittedCount "navigation-start" st ->
        exists event, i = Dispatch CursorEl "click" event).
Proof.
  intros Hreach. pose proof (reachable_wired data st Hreach) as Hw.
  repeat split.
  - intros l Hl. apply wiring_has_no_mouse_handler, Hw, Hl.
  - by apply reachable_mouseUntouched in Hreach as [? _].
  - by apply reachable_mouseUntouched in Hreach as [_ ?].
  - intros env target type event Hty. apply dispatch_unheard; [exact Hw |].
    apply list_elem_of_In in Hty. simpl in Hty.
    repeat (destruct Hty as [<-|Hty]); try contradiction;
      repeat constructor; unfold listensTo; apply andb_false_r.
  - intros env i Hne.
    destruct i as [| | | | target type event | |];
      try (exfalso; apply Hne; apply navigation_start_needs_click;
           [exact Hw | discriminate]).
    destruct (decide (target = CursorEl)) as [->|Ht];
      [destruct (String.eqb_spec type "click") as [->|Hty]; [by exists event |] |];
      exfalso; apply Hne; apply navigation_start_needs_click;
      try exact Hw; intros e; congruence.
Qed.

End TransitionClaims.

Section TransitionScenes.
Import Scenes.
#[local] Existing Instance flat.

Lemma clicked_reachable : reachable defaults clicked.
Proof. unfold clicked, hovering, onFloor. repeat apply reachable_step. apply reachable_init. Qed.

Lemma transition_progress_and_end_witness :
  transitionProgress (transitionState (tick defaults 2116 2000 floorOnly clicked))
  = transitionProgress (transitionState clicked) + 2000 * transitionSpeed defaults
  /\ transitionProgress (transitionState clicked)
     <= transitionProgress (transitionState (tick defaults 2116 2000 floorOnly clicked))
  /\ (transitionProgress (transitionState (tick defaults 2116 2000 floorOnly clicked)) < 1 ->
      transitioning (transitionState (tick defaults 2116 2000 floorOnly clicked)) = true
      /\ emitted (outside (tick defaults 2116 2000 floorOnly clicked))
         = emitted (outside clicked))
  /\ (1 <= transitionProgress (transitionState (tick defaults 2116 2000 floorOnly clicked)) ->
      transitioning (transitionState (tick defaults 2116 2000 floorOnly clicked)) = false
      /\ position (camRig (tick defaults 2116 2000 floorOnly clicked))
         = transitionCamPosEnd (transitionState clicked)
      /\ quaternion (camRig (tick defaults 2116 2000 floorOnly clicked))
         = transitionRotEnd (transitionState clicked)
      /\ emitted (outside (tick defaults 2116 2000 floorOnly clicked))
         = emitted (outside clicked) ++ ["navigation-end"]
      /\ forall fs,
           emitted (outside (run defaults (frames fs)
                                 (tick defaults 2116 2000 floorOnly clicked)))
           = emitted (outside (tick defaults 2116 2000 floorOnly clicked))).
Proof.
  apply (transition_progress_and_end defaults 2116 2000 floorOnly clicked).
  - exact clicked_reachable.
  - vm_compute; reflexivity.
  - vm_compute; discriminate.
  - vm_compute; reflexivity.
Defined.

Lemma transition_preempts_witness :
  transitioning
    (transitionState (transition defaults (PosVector (vec3 1 0 1)) None clicked))
  = true
  /\ transitionProgress
       (transitionState (transition defaults (PosVector (vec3 1 0 1)) None clicked))
     = 0
  /\ transitionCamPosStart
       (transitionState (transition defaults (PosVector (vec3 1 0 1)) None clicked))
     = position (camRig clicked)
  /\ transitionRotStart
       (transitionState (transition defaults (PosVector (vec3 1 0 1)) None clicked))
     = quaternion (camRig clicked)
  /\ transitionCamPosEnd
       (transitionState (transition defaults (PosVector (vec3 1 0 1)) None clicked))
     = vec3 1 0 1
  /\ (forall q, None = Some q ->
        transitionRotEnd
          (transitionState (transition defaults (PosVector (vec3 1 0 1)) None clicked))
        = q)
  /\ camRig (transition defaults (PosVector (vec3 1 0 1)) None clicked)
     = camRig clicked
  /\ position
       (camRig (tick defaults 132 16 floorOnly
                  (transition defaults (PosVector (vec3 1 0 1)) None clicked)))
     = lerpVectors (position (camRig clicked)) (vec3 1 0 1)
                   (easeInOutQuad (0 + 16 * transitionSpeed defaults))
  /\ position
       (camRig (tick defaults 132 0 floorOnly
                  (transition defaults (PosVector (vec3 1 0 1)) None clicked)))
     =v= position (camRig clicked).
Proof.
  apply (transition_preempts defaults (PosVector (vec3 1 0 1)) None 132 16
           floorOnly clicked).
  vm_compute; reflexivity.
Defined.

Lemma indicator_is_frozen_while_transitioning_witness :
  teleportIndicator (tick defaults 116 16 floorOnly clicked)
  = teleportIndicator clicked
  /\ (transitioning (transitionState (cursorClickHandler defaults floorOnly hovering))
      = true
      /\ position (teleportIndicator (cursorClickHandler defaults floorOnly hovering))
         = landing_point (mkLanding (vec3 0 0 0) TempVector3)
      /\ shown (teleportIndicator (cursorClickHandler defaults floorOnly hovering))
         = shown (teleportIndicator hovering)
      /\ teleportIndicator
           (tick defaults 116 16 floorOnly (cursorClickHandler defaults floorOnly hovering))
         = teleportIndicator (cursorClickHandler defaults floorOnly hovering)).
Proof.
  split.
  - apply (proj1 (indicator_is_frozen_while_transitioning defaults 116 16 floorOnly
                    floorOnly clicked)).
    vm_compute; reflexivity.
  - apply (proj2 (indicator_is_frozen_while_transitioning defaults 116 16 floorOnly
                    floorOnly hovering)
             (mkLanding (vec3 0 0 0) TempVector3)
             (getTeleportPositionFromCursor defaults floorOnly hovering).2).
    vm_compute; reflexivity.
Defined.

(** C7 as stated fails: after hovering the floor and clicking, the
    transition is in progress and the indicator is visible; it is still
    visible after the next frame of the transition. *)
Lemma visible_indicator_counterexample :
  reachable defaults clicked
  /\ transitioning (transitionState clicked) = true
  /\ shown (teleportIndicator clicked) = true
  /\ transitioning (transitionState (tick defaults 116 16 floorOnly clicked)) = true
  /\ shown (teleportIndicator (tick defaults 116 16 floorOnly clicked)) = true.
Proof.
  split; [exact clicked_reachable |].
  repeat split; vm_compute; reflexivity.
Qed.

Lemma mouse_adapter_is_unreachable_witness :
  (forall l, l ∈ listeners (outside clicked) -> isMouseHandler (l_handler l) = false)
  /\ mouseUntouched clicked
  /\ (forall env target type event,
        type ∈ ["mousedown"; "mousemove"; "mouseup";
                "touchstart"; "touchmove"; "touchend"] ->
        dispatch defaults target type event env clicked = clicked)
  /\ (forall env i,
        emittedCount "navigation-start" (step defaults env i clicked)
        <> emittedCount "navigation-start" clicked ->
        exists event, i = Dispatch CursorEl "click" event).
Proof.
  apply (mouse_adapter_is_unreachable defaults clicked).
  exact clicked_reachable.
Defined.

End TransitionScenes.

(** * Further properties *)

(** ** Flags *)

Section Flags.
Context `{!Three}.
Variable data : Data.

Lemma flagsKept_refl u : flagsKept u u.
Proof. unfold flagsKept. auto. Qed.

Lemma flagsKept_trans u v w : flagsKept u v -> flagsKept v w -> flagsKept u w.
Proof. unfold flagsKept. intros (? & ? & ?) (? & ? & ?). auto. Qed.

Lemma foldl_setCollision_lookup meshes store k :
  foldl setCollision store meshes !! k =
  if bool_decide (k ∈ map oid meshes)
  then let u := default noUserData (store !! k) in
       Some (mkUserData true (isNavmesh u) (raycastExclude u))
  else store !! k.
Proof.
  revert store. induction meshes as [|m r IH]; intros store; cbn [foldl map].
  - rewrite bool_decide_eq_false_2; [reflexivity | apply not_elem_of_nil].
  - rewrite IH. unfold setCollision at 1 2. unfold userDataOf.
    destruct (decide (k = oid m)) as [->|Hne].
    + rewrite lookup_insert_eq. cbn [default isNavmesh raycastExclude].
      rewrite (bool_decide_eq_true_2 (oid m ∈ oid m :: map oid r)); [| by left].
      destruct (bool_decide (oid m ∈ map oid r)); reflexivity.
    + rewrite lookup_insert_ne; [| congruence].
      destruct (bool_decide (k ∈ map oid r)) eqn:E.
      * apply bool_decide_eq_true in E.
        rewrite bool_decide_eq_true_2; [reflexivity | by right].
      * apply bool_decide_eq_false in E.
        rewrite bool_decide_eq_false_2; [reflexivity |].
        intros [?|?]%elem_of_cons; [congruence | contradiction].
Qed.

Lemma foldl_setRaycastExclude_lookup meshes store k :
  foldl setRaycastExclude store meshes !! k =
  if bool_decide (k ∈ map oid meshes)
  then let u := default noUserData (store !! k) in
       Some (mkUserData (collision u) (isNavmesh u) true)
  else store !! k.
Proof.
  revert store. induction meshes as [|m r IH]; intros store; cbn [foldl map].
  - rewrite bool_decide_eq_false_2; [reflexivity | apply not_elem_of_nil].
  - rewrite IH. unfold setRaycastExclude at 1 2. unfold userDataOf.
    destruct (decide (k = oid m)) as [->|Hne].
    + rewrite lookup_insert_eq. cbn [default isNavmesh collision].
      rewrite (bool_decide_eq_true_2 (oid m ∈ oid m :: map oid r)); [| by left].
      destruct (bool_decide (oid m ∈ map oid r)); reflexivity.
    + rewrite lookup_insert_ne; [| congruence].
      destruct (bool_decide (k ∈ map oid r)) eqn:E.
      * apply bool_decide_eq_true in E.
        rewrite bool_decide_eq_true_2; [reflexivity | by right].
      * apply bool_decide_eq_false in E.
        rewrite bool_decide_eq_false_2; [reflexivity |].
        intros [?|?]%elem_of_cons; [congruence | contradiction].
Qed.

Lemma navmesh_init_flagsKept el store o :
  flagsKept (userDataOf store o) (userDataOf (navmesh_init el store) o).
Proof.
  unfold navmesh_init, userDataOf. rewrite foldl_setCollision_lookup.
  destruct (bool_decide _); [| apply flagsKept_refl].
  unfold flagsKept. simpl. auto.
Qed.

Lemma raycast_exclude_init_flagsKept el store o :
  flagsKept (userDataOf store o) (userDataOf (raycast_exclude_init el store) o).
Proof.
  unfold raycast_exclude_init, userDataOf. rewrite foldl_setRaycastExclude_lookup.
  destruct (bool_decide _); [| apply flagsKept_refl].
  unfold flagsKept. simpl. auto.
Qed.

Lemma updateRaycastObjects_flagsKept env st o :
  oid o <> CollisionMeshId ->
  flagsKept (userDataOf (userData st) o)
            (userDataOf (userData (updateRaycastObjects data env st)) o).
Proof.
  intros Ho. rewrite updateRaycastObjects_userData. unfold userDataOf.
  destruct (negb (String.eqb (collisionEntities data) "")).
  - rewrite foldl_markNavmesh_lookup.
    destruct (bool_decide _); [| apply flagsKept_refl].
    unfold flagsKept. simpl. auto.
  - destruct (collisionMesh (registry st)); [apply flagsKept_refl |].
    rewrite lookup_insert_ne by congruence. apply flagsKept_refl.
Qed.

End Flags.

(** ** The store of flags along a run *)

Section Store.
Context `{!Three}.
Variable data : Data.

(** Frames touch the registry and the flags through the refresh only. *)
Lemma store_hoverStep time env st :
  userData (hoverStep data time env st) = userData st
  /\ registry (hoverStep data time env st) = registry st.
Proof. unfold_methods. split_cases; auto. Qed.

Lemma store_transitionStep deltaTime st :
  userData (transitionStep data deltaTime st) = userData st
  /\ registry (transitionStep data deltaTime st) = registry st.
Proof. unfold_methods. split_cases; auto. Qed.

Lemma store_refreshRegistry time env st :
  refreshRegistry data time env st
  = if refreshDue time st
    then set_hover
           (mkHoverCache (lastTeleportCheck (hover (updateRaycastObjects data env st)))
                         (cachedTeleportPos (hover (updateRaycastObjects data env st)))
                         (Some time))
           (updateRaycastObjects data env st)
    else st.
Proof. reflexivity. Qed.

Lemma store_tick time deltaTime env st :
  userData (tick data time deltaTime env st)
  = (if refreshDue time st then userData (updateRaycastObjects data env st)
     else userData st)
  /\ registry (tick data time deltaTime env st)
     = (if refreshDue time st then registry (updateRaycastObjects data env st)
        else registry st).
Proof.
  unfold tick.
  destruct (store_transitionStep deltaTime
              (hoverStep data time env (refreshRegistry data time env st)))
    as [-> ->].
  destruct (store_hoverStep time env (refreshRegistry data time env st)) as [-> ->].
  rewrite store_refreshRegistry. destruct (refreshDue time st); auto.
Qed.

(** A property of the store that the rebuild and the two marker components
    preserve holds along every run. *)
Lemma userData_runHandler (P : gmap ObjId UserData -> Prop) h event env st :
  (forall env s, P (userData s) -> P (userData (updateRaycastObjects data env s))) ->
  P (userData st) -> P (userData (runHandler data h event env st)).
Proof.
  intros Hup Hst.
  destruct h; unfold runHandler; unfold_methods; split_cases;
    try assumption; by apply Hup.
Qed.

Lemma userData_step (P : gmap ObjId UserData -> Prop) env i st :
  (forall env s, P (userData s) -> P (userData (updateRaycastObjects data env s))) ->
  (forall el s, P s -> P (navmesh_init el s)) ->
  (forall el s, P s -> P (raycast_exclude_init el s)) ->
  P (userData st) -> P (userData (step data env i st)).
Proof.
  intros Hup Hnav Hex Hst. destruct i; unfold step.
  - destruct (store_tick time deltaTime env st) as [-> _].
    destruct (refreshDue time st); auto.
  - unfold_methods. split_cases; assumption.
  - unfold_methods. split_cases; assumption.
  - unfold_methods. split_cases; assumption.
  - apply (dispatch_preserves data (fun s => P (userData s))); [| exact Hst].
    intros h s Hs. by apply userData_runHandler.
  - simpl. auto.
  - simpl. auto.
Qed.

Lemma userData_run (P : gmap ObjId UserData -> Prop) inputs st :
  (forall env s, P (userData s) -> P (userData (updateRaycastObjects data env s))) ->
  (forall el s, P s -> P (navmesh_init el s)) ->
  (forall el s, P s -> P (raycast_exclude_init el s)) ->
  P (userData st) -> P (userData (run data inputs st)).
Proof.
  intros Hup Hnav Hex. revert st. unfold run.
  induction inputs as [|[env i] inputs IH]; intros st Hst; simpl; [exact Hst |].
  apply IH. by apply userData_step.
Qed.

(** X1. No method of the component and neither marker component ever clears
    a flag of a scene object: along any run, a flag that is set stays
    set. *)
Theorem flags_are_never_cleared inputs st o :
  oid o <> CollisionMeshId ->
  flagsKept (userDataOf (userData st) o)
            (userDataOf (userData (run data inputs st)) o).
Proof.
  intros Ho.
  apply (userData_run (fun s => flagsKept (userDataOf (userData st) o) (userDataOf s o))).
  - intros env s Hs. eapply flagsKept_trans; [exact Hs |].
    by apply updateRaycastObjects_flagsKept.
  - intros el s Hs. eapply flagsKept_trans; [exact Hs |].
    apply navmesh_init_flagsKept.
  - intros el s Hs. eapply flagsKept_trans; [exact Hs |].
    apply raycast_exclude_init_flagsKept.
  - apply flagsKept_refl.
Qed.

End Store.

(** ** Marker components and the registry *)

Section Markers.
Context `{!Three}.
Variable data : Data.

(** X2. [raycast-exclude] takes effect on the occlusion list at a
    rebuild only: its [init] leaves [allSceneMeshes] as it is, and every
    rebuild after it, whatever happened in between, leaves the meshes of
    its entity out of [allSceneMeshes]. This is about the members of the
    list; the raycast over the list also tests their descendants. *)
Theorem raycast_exclude_takes_effect_on_rebuild el env0 st inputs env m o :
  m ∈ meshesOf [el] ->
  oid o = oid m ->
  oid o <> CollisionMeshId ->
  occlusionMeshes (step data env0 (RaycastExcludeInit el) st) = occlusionMeshes st
  /\ o ∉ occlusionMeshes
          (updateRaycastObjects data env
             (run data inputs (step data env0 (RaycastExcludeInit el) st))).
Proof.
  intros Hm Hid Ho. split; [reflexivity |]. intros Hin.
  rewrite updateRaycastObjects_allSceneMeshes in Hin.
  apply list_elem_of_In, filter_In in Hin as [_ Hf].
  apply andb_true_iff in Hf as [_ Hf]. apply negb_true_iff in Hf.
  assert (raycastExclude
            (userDataOf
               (userData (run data inputs (step data env0 (RaycastExcludeInit el) st)))
               o) = true) as Hk.
  { apply (userData_run data (fun s => raycastExclude (userDataOf s o) = true)).
    - intros env1 s Hs.
      by apply (updateRaycastObjects_flagsKept data env1 s o Ho).
    - intros el1 s Hs. by apply (navmesh_init_flagsKept el1 s o).
    - intros el1 s Hs. by apply (raycast_exclude_init_flagsKept el1 s o).
    - simpl. unfold raycast_exclude_init, userDataOf.
      rewrite foldl_setRaycastExclude_lookup, Hid.
      rewrite bool_decide_eq_true_2; [reflexivity |].
      apply list_elem_of_fmap. by exists m. }
  rewrite Hk in Hf. discriminate.
Qed.





Lemma updateRaycastObjects_warnings env st :
  warnings (outside (updateRaycastObjects data env st))
  = warnings (outside st)
    ++ (if Nat.eqb
             (length (if negb (String.eqb (collisionEntities data) "")
                      then meshesOf (querySelectorAll env (collisionEntities data))
                      else [defaultCollisionMesh]))
             0
           && Nat.ltb 0 (length (rayCastObjects (registry st)))
        then [lostAllWarning] else []).
Proof.
  unfold updateRaycastObjects.
  destruct (negb (String.eqb (collisionEntities data) "")).
  - simpl. destruct (_ && _); simpl; [reflexivity | by rewrite app_nil_r].
  - destruct (collisionMesh (registry st)); simpl; by rewrite app_nil_r.
Qed.

(** X5. The critical warning compares the collision meshes found with the
    whole previous registry, ignore meshes included: when the collision
    selector finds no mesh and the ignore selector finds some, every
    rebuild after the first warns again that all collision objects were
    lost, on an unchanged scene. *)
Theorem lost_all_warning_repeats env st :
  negb (String.eqb (collisionEntities data) "") = true ->
  meshesOf (querySelectorAll env (collisionEntities data)) = [] ->
  negb (String.eqb (ignoreEntities data) "") = true ->
  meshesOf (querySelectorAll env (ignoreEntities data)) <> [] ->
  warnings (outside (updateRaycastObjects data env (updateRaycastObjects data env st)))
  = warnings (outside (updateRaycastObjects data env st)) ++ [lostAllWarning].
Proof.
  intros Hsel Hnone Hign Hsome.
  rewrite (updateRaycastObjects_warnings env (updateRaycastObjects data env st)).
  rewrite updateRaycastObjects_rayCastObjects, Hsel, Hnone, Hign. simpl.
  destruct (meshesOf (querySelectorAll env (ignoreEntities data))); [done |].
  reflexivity.
Qed.

End Markers.

(** ** The two resolvers *)

Section Resolvers.
Context `{!Three}.
Variable data : Data.

(** X6. The cursor resolver is sound: a landing it returns is the nearest
    intersection of a linked cursor ray with the occlusion meshes, on an
    object flagged both navmesh and collidable, within the landing angle of
    [this.referenceNormal], with a non-empty registry; the landing has the
    point of that intersection and its world normal. *)
Theorem cursor_landing_is_sound env st landing st' :
  getTeleportPositionFromCursor data env st = (Some landing, st') ->
  exists rc firstHit,
    cursorRay env st = Some rc
    /\ rayCastObjects (registry st) <> []
    /\ nearestSceneHit rc st = Some firstHit
    /\ collidableNavmesh st (object firstHit)
    /\ landingAngle (referenceNormal st) firstHit <= landingMaxAngle data
    /\ landing_point landing = point firstHit
    /\ deref st' (landing_normal landing) = worldNormal firstHit.
Proof.
  unfold getTeleportPositionFromCursor, cursorRay, resolveWith, landingAt,
    nearestSceneHit, occlusionMeshes, collidableNavmesh, landingAngle, worldNormal,
    isValidNormalsAngle.
  intros Hres. split_cases.
  all: match goal with
       | H : intersectObjects ?rc _ _ = ?h :: _ |- _ => exists rc, h
       end.
  all: repeat match goal with
         | H : negb _ = false |- _ => apply negb_false_iff in H
         | H : _ || _ = false |- _ => apply orb_false_iff in H as [? ?]
         | H : Qle_bool _ _ = true |- _ => apply Qle_bool_iff in H
         | H : Nat.eqb (length ?l) 0 = false |- _ =>
             destruct l; [discriminate | clear H]
         end.
  all: split_and!; auto.
  all: match goal with H : intersectObjects _ _ _ = _ |- _ => by rewrite H end.
Qed.

(** X7. The screen resolver looks at the registry only. Its first hit blocks
    the landing when the object does not carry the collision flag (a mesh
    of an ignore entity, for one) or when the surface is too steep,
    whatever lies behind. *)
Theorem screen_resolver_blocked env x y st firstHit :
  nearestRegistryHit (screenRay env x y) st = Some firstHit ->
  collision (userDataOf (userData st) (object firstHit)) = false
  \/ landingMaxAngle data < landingAngle (referenceNormal st) firstHit ->
  (getTeleportPosition data env x y st).1 = None.
Proof.
  unfold getTeleportPosition, nearestRegistryHit, screenRay, landingAngle,
    isValidNormalsAngle.
  intros Hhit Hbad.
  destruct (_ || _ || _); [reflexivity |].
  destruct (intersectObjects _ _ _) as [|h rest]; [reflexivity |].
  simpl in Hhit. injection Hhit as ->.
  destruct Hbad as [-> | Hsteep].
  - by rewrite orb_true_r.
  - apply Qle_bool_false_iff in Hsteep. by rewrite Hsteep.
Qed.

(** X8. The screen resolver lands on the first registry hit that carries the
    collision flag within the landing angle. It asks neither for the
    navmesh flag nor for the absence of an occluder outside the registry. *)
Theorem screen_resolver_lands env x y st firstHit :
  rayCastObjects (registry st) <> [] ->
  cam (mouse st) = true ->
  canvas (mouse st) = true ->
  nearestRegistryHit (screenRay env x y) st = Some firstHit ->
  collision (userDataOf (userData st) (object firstHit)) = true ->
  landingAngle (referenceNormal st) firstHit <= landingMaxAngle data ->
  getTeleportPosition data env x y st
  = (Some (mkLanding (point firstHit) TempVector3),
     set_tempVector3 (worldNormal firstHit) st).
Proof.
  unfold getTeleportPosition, nearestRegistryHit, screenRay, landingAt, worldNormal.
  intros Hreg -> -> Hhit Hcol Hangle.
  assert (Nat.eqb (length (rayCastObjects (registry st))) 0 = false) as ->
    by (by destruct (rayCastObjects (registry st))).
  cbn [negb orb]. destruct (intersectObjects _ _ _) as [|h rest]; [discriminate |].
  simpl in Hhit. injection Hhit as ->.
  apply (isValidNormalsAngle_iff data) in Hangle. by rewrite Hangle, Hcol.
Qed.

End Resolvers.

(** ** Hover preview *)

Section Hover.
Context `{!Three}.
Variable data : Data.

Lemma hoverStep_idle_transition time env st :
  transitioning (transitionState (hoverStep data time env st))
  = transitioning (transitionState st).
Proof.
  destruct (core_hoverStep data time env st) as [Hc _].
  unfold core in Hc. injection Hc as _ _ _ _ -> _. reflexivity.
Qed.

(** An idle frame without a registry refresh is the hover preview. *)
Lemma tick_idle_quiet time deltaTime env st :
  transitioning (transitionState st) = false ->
  refreshDue time st = false ->
  tick data time deltaTime env st = hoverStep data time env st.
Proof.
  intros Hidle Hdue. unfold tick. rewrite store_refreshRegistry, Hdue.
  apply transitionStep_idle. by rewrite hoverStep_idle_transition.
Qed.

(** X9. Within the throttle window an idle frame does not raycast: it shows
    the indicator from the cached landing and leaves the cache alone. The
    normal of that landing is [this.tempVector3] itself, which the preview
    scales by 0.01 in place: every such frame shrinks the cached normal by
    that factor, and the indicator is oriented by the shrunk vector. *)
Theorem hover_cache_shrinks_normal time deltaTime env st l :
  transitioning (transitionState st) = false ->
  refreshDue time st = false ->
  time - lastTeleportCheck (hover st) <= teleportCheckInterval ->
  cachedTeleportPos (hover st) = Some l ->
  alignToSurface data = true ->
  hover (tick data time deltaTime env st) = hover st
  /\ deref (tick data time deltaTime env st) (landing_normal l)
     = multiplyScalar (deref st (landing_normal l)) (1 # 100)
  /\ teleportIndicator (tick data time deltaTime env st)
     = mkPose (add (landing_point l)
                   (multiplyScalar (deref st (landing_normal l)) (1 # 100)))
              (setFromUnitVectors upVector
                 (multiplyScalar (deref st (landing_normal l)) (1 # 100)))
              true.
Proof.
  intros Hidle Hdue Hwin Hcache Halign.
  rewrite tick_idle_quiet by assumption.
  unfold hoverStep. rewrite Hidle.
  apply Qlt_bool_false_iff in Hwin. rewrite Hwin, Hcache.
  unfold showIndicator. rewrite Halign. destruct l as [p []]. auto.
Qed.

(** X10. Past the throttle window an idle frame asks the cursor resolver. A
    landing is cached and stamped with the frame time, the indicator is
    shown at the landing point moved by 0.01 along the normal, and it is
    oriented by the normal scaled by 0.01, which is also what the cached
    landing keeps as its normal. *)
Theorem hover_preview_of_a_landing time deltaTime env st l st1 :
  transitioning (transitionState st) = false ->
  refreshDue time st = false ->
  teleportCheckInterval < time - lastTeleportCheck (hover st) ->
  getTeleportPositionFromCursor data env st = (Some l, st1) ->
  alignToSurface data = true ->
  cachedTeleportPos (hover (tick data time deltaTime env st)) = Some l
  /\ lastTeleportCheck (hover (tick data time deltaTime env st)) = time
  /\ deref (tick data time deltaTime env st) (landing_normal l)
     = multiplyScalar (deref st1 (landing_normal l)) (1 # 100)
  /\ teleportIndicator (tick data time deltaTime env st)
     = mkPose (add (landing_point l)
                   (multiplyScalar (deref st1 (landing_normal l)) (1 # 100)))
              (setFromUnitVectors upVector
                 (multiplyScalar (deref st1 (landing_normal l)) (1 # 100)))
              true.
Proof.
  intros Hidle Hdue Hwin Hres Halign.
  rewrite tick_idle_quiet by assumption.
  unfold hoverStep. rewrite Hidle.
  apply Qlt_bool_iff in Hwin. rewrite Hwin, Hres.
  unfold showIndicator. rewrite Halign. destruct l as [p []]. auto.
Qed.

Lemma lastRaycastUpdate_hoverStep time env st :
  lastRaycastUpdate (hover (hoverStep data time env st))
  = lastRaycastUpdate (hover st).
Proof. unfold_methods. split_cases; reflexivity. Qed.

Lemma hover_transitionStep deltaTime st :
  hover (transitionStep data deltaTime st) = hover st.
Proof. unfold_methods. split_cases; reflexivity. Qed.

(** X11. Between two refreshes a frame leaves the registry and the flags as
    they are; a frame on which the refresh is due (never refreshed, last
    refresh stamped 0, or more than 15000 ms ago) leaves what a rebuild
    gives and stamps the refresh with the frame time. *)
Theorem registry_changes_on_refresh_only time deltaTime env st :
  (refreshDue time st = false ->
   registry (tick data time deltaTime env st) = registry st
   /\ userData (tick data time deltaTime env st) = userData st
   /\ lastRaycastUpdate (hover (tick data time deltaTime env st))
      = lastRaycastUpdate (hover st))
  /\ (refreshDue time st = true ->
      registry (tick data time deltaTime env st)
      = registry (updateRaycastObjects data env st)
      /\ userData (tick data time deltaTime env st)
         = userData (updateRaycastObjects data env st)
      /\ lastRaycastUpdate (hover (tick data time deltaTime env st)) = Some time).
Proof.
  destruct (store_tick data time deltaTime env st) as [-> ->].
  unfold tick. rewrite hover_transitionStep, lastRaycastUpdate_hoverStep.
  rewrite store_refreshRegistry.
  destruct (refreshDue time st); split; intros; try discriminate; auto.
Qed.

End Hover.

(** ** Clicks *)

Section Clicks.
Context `{!Three}.
Variable data : Data.

(** The resolver on a valid nearest hit, with the frame it leaves. *)
Lemma resolver_lands env st rc firstHit :
  cursorRay env st = Some rc ->
  rayCastObjects (registry st) <> [] ->
  nearestSceneHit rc st = Some firstHit ->
  collidableNavmesh st (object firstHit) ->
  landingAngle (referenceNormal st) firstHit <= landingMaxAngle data ->
  exists st1,
    getTeleportPositionFromCursor data env st
    = (Some (mkLanding (point firstHit) TempVector3), st1)
    /\ tempVector3 st1 = worldNormal firstHit
    /\ core st1 = core st
    /\ teleportIndicator st1 = teleportIndicator st
    /\ vr st1 = vr st.
Proof.
  intros Hray Hreg Hhit [Hnav Hcol] Hangle.
  destruct (resolver_with_ray data env st rc Hray) as [Hres Htmp].
  destruct (core_resolver data env st) as (Hc & Hi & Hv & _).
  destruct (getTeleportPositionFromCursor data env st) as [res st1].
  simpl in *. exists st1.
  assert (resolveWith data rc st
          = (Some (mkLanding (point firstHit) TempVector3),
             set_tempVector3 (worldNormal firstHit) st)) as E.
  { unfold resolveWith, nearestSceneHit, occlusionMeshes, landingAt, worldNormal in *.
    assert (Nat.eqb (length (rayCastObjects (registry st))) 0 = false) as ->
      by (by destruct (rayCastObjects (registry st))).
    destruct (intersectObjects rc (default [] (allSceneMeshes (registry st))) true)
      as [|x rest]; [discriminate |].
    simpl in Hhit. injection Hhit as ->.
    apply (isValidNormalsAngle_iff data) in Hangle.
    by rewrite Hnav, Hangle, Hcol. }
  rewrite E in Hres, Htmp. simpl in *. subst res. auto.
Qed.

(** X12. A click on the a-cursor entity whose ray resolves to a landing starts
    a transition from the pose the rig has to exactly the point of the hit:
    the progress is 0, the end orientation is the rotation of the up vector
    onto the world normal of the hit when [alignToSurface] is set and the
    orientation of the rig otherwise, ["navigation-start"] is emitted once,
    the indicator is moved onto the point, and the rig has not moved yet. *)
Theorem click_starts_transition env st rc firstHit :
  cursorRay env st = Some rc ->
  rayCastObjects (registry st) <> [] ->
  nearestSceneHit rc st = Some firstHit ->
  collidableNavmesh st (object firstHit) ->
  landingAngle (referenceNormal st) firstHit <= landingMaxAngle data ->
  transitionState (cursorClickHandler data env st)
  = mkTransition true 0 (position (camRig st)) (point firstHit)
      (quaternion (camRig st))
      (if alignToSurface data
       then setFromUnitVectors upVector (worldNormal firstHit)
       else quaternion (camRig st))
      (worldNormal firstHit)
  /\ camRig (cursorClickHandler data env st) = camRig st
  /\ emitted (outside (cursorClickHandler data env st))
     = emitted (outside st) ++ ["navigation-start"]
  /\ position (teleportIndicator (cursorClickHandler data env st)) = point firstHit
  /\ shown (teleportIndicator (cursorClickHandler data env st))
     = shown (teleportIndicator st).
Proof.
  intros Hray Hreg Hhit Hflags Hangle.
  destruct (resolver_lands env st rc firstHit Hray Hreg Hhit Hflags Hangle)
    as (st1 & Hres & Htmp & Hc & Hi & Hv).
  unfold cursorClickHandler. rewrite Hres.
  unfold core in Hc. injection Hc as _ _ He _ Ht Hr.
  unfold confirmTeleport, transition, triggerTunnelAnimation, logTunnel, emit.
  simpl. rewrite Htmp, Hr, He, Hi.
  destruct (alignToSurface data); split_cases; auto.
Qed.

(** What a click does to the transition and the events, whatever the
    ray. *)
Lemma cursorClickHandler_effect env st :
  (transitionState (cursorClickHandler data env st) = transitionState st
   /\ emitted (outside (cursorClickHandler data env st)) = emitted (outside st))
  \/ (transitioning (transitionState (cursorClickHandler data env st)) = true
      /\ emitted (outside (cursorClickHandler data env st))
         = emitted (outside st) ++ ["navigation-start"]).
Proof.
  unfold cursorClickHandler.
  destruct (core_resolver data env st) as (Hc & _).
  destruct (getTeleportPositionFromCursor data env st) as [[l|] st1]; simpl in *;
    unfold core in Hc; injection Hc as _ _ He _ Ht Hr; [right | left; auto].
  unfold confirmTeleport, transition, triggerTunnelAnimation, logTunnel, emit.
  rewrite <- He. destruct l; split_cases; auto.
Qed.

End Clicks.

(** ** Transitions that are abandoned *)

Section Course.
Context `{!Three}.
Variable data : Data.

(** X16. [pause] abandons a transition in progress: the transition is off, the
    indicator is hidden and the keydown listener is gone. [play] does not
    resume it: the frames that follow neither move the rig, which stays
    where the interpolation left it, nor emit ["navigation-end"]. *)
Theorem pause_abandons_transition env fs st :
  transitioning (transitionState (pause st)) = false
  /\ shown (teleportIndicator (pause st)) = false
  /\ (keydownListener ∉ listeners (outside (pause st)))
  /\ camRig (run data (frames fs) (play env (pause st))) = camRig st
  /\ emitted (outside (run data (frames fs) (play env (pause st))))
     = emitted (outside st).
Proof.
  assert (transitioning (transitionState (play env (pause st))) = false
          /\ camRig (play env (pause st)) = camRig st
          /\ emitted (outside (play env (pause st))) = emitted (outside st))
    as (Hoff & Hr & He)
    by (unfold_methods; split_cases; auto).
  destruct (frames_idle data fs (play env (pause st)) Hoff) as (_ & -> & ->).
  split_and!; try reflexivity; try assumption.
  unfold pause, set_listeners, removeEventListener. simpl.
  intros Hin. apply list_elem_of_In, filter_In in Hin as [_ Hne].
  by rewrite bool_decide_eq_true_2 in Hne.
Qed.

(** X17. Entering VR abandons a transition in progress in the same way, and
    resets its progress. *)
Theorem enter_vr_abandons_transition env fs st :
  transitioning (transitionState (onEnterVR env st)) = false
  /\ transitionProgress (transitionState (onEnterVR env st)) = 0
  /\ isVR (vr (onEnterVR env st)) = true
  /\ camRig (run data (frames fs) (onEnterVR env st)) = camRig st
  /\ emitted (outside (run data (frames fs) (onEnterVR env st)))
     = emitted (outside st).
Proof.
  assert (transitioning (transitionState (onEnterVR env st)) = false
          /\ transitionProgress (transitionState (onEnterVR env st)) = 0
          /\ isVR (vr (onEnterVR env st)) = true
          /\ camRig (onEnterVR env st) = camRig st
          /\ emitted (outside (onEnterVR env st)) = emitted (outside st))
    as (Hoff & Hp & Hvr & Hr & He)
    by (unfold_methods; split_cases; auto 10).
  destruct (frames_idle data fs (onEnterVR env st) Hoff) as (_ & -> & ->).
  auto.
Qed.

End Course.

(** ** Wiring and events along a run *)

Section RunInvariants.
Context `{!Three}.
Variable data : Data.

Lemma retriedOnce_setupCursor env st :
  retriedOnce st -> retriedOnce (setupCursor env st).
Proof.
  unfold retriedOnce. intros [Hle Hz]. unfold_methods.
  split_cases; split; auto; try lia; try discriminate.
  all: specialize (Hz ltac:(by apply negb_true_iff)); lia.
Qed.

Lemma retry_frame_hoverStep time env st :
  cursorSetupRetried (cursorLink (hoverStep data time env st))
  = cursorSetupRetried (cursorLink st).
Proof. unfold_methods. split_cases; reflexivity. Qed.

Lemma cursorLink_transitionStep deltaTime st :
  cursorLink (transitionStep data deltaTime st) = cursorLink st.
Proof. unfold_methods. split_cases; reflexivity. Qed.

Lemma cursorLink_refreshRegistry time env st :
  cursorLink (refreshRegistry data time env st) = cursorLink st.
Proof. unfold_component. split_cases; reflexivity. Qed.

Lemma retriedOnce_tick time deltaTime env st :
  retriedOnce st -> retriedOnce (tick data time deltaTime env st).
Proof.
  unfold retriedOnce, tick.
  rewrite cursorLink_transitionStep, retry_frame_hoverStep, cursorLink_refreshRegistry.
  destruct (frame_transitionStep data deltaTime
              (hoverStep data time env (refreshRegistry data time env st)))
    as (_ & _ & -> & _).
  destruct (core_hoverStep data time env (refreshRegistry data time env st))
    as (Hh & _).
  destruct (core_refreshRegistry data time env st) as (Hr & _).
  rewrite Hr in Hh. unfold core in Hh. injection Hh as _ _ _ -> _ _. auto.
Qed.

Lemma retriedOnce_runHandler h event env st :
  retriedOnce st -> retriedOnce (runHandler data h event env st).
Proof.
  destruct h; unfold runHandler;
    try (unfold retriedOnce; intros [Hle Hz]; unfold_component;
         split_cases; split; auto; lia).
  - unfold onEnterVR. intros Hst.
    assert (retriedOnce
              (setupVRCursor env
                 (initializeTunnelForVR env
                    (stopTransition true
                       (set_vr (mkVRState true (tunnelElement (vr st))
                                          (vrTransitionReady (vr st))) st)))))
      as Hs.
    { apply retriedOnce_setupCursor. revert Hst. unfold retriedOnce.
      unfold_methods. split_cases; auto. }
    revert Hs. unfold retriedOnce. simpl. auto.
  - unfold onVisibilityChange. intros Hst.
    case_match; [by apply retriedOnce_setupCursor | exact Hst].
Qed.

(** X18. The cursor setup is retried once at most: in every reachable state at
    most one retry is pending, and none is pending before a setup has
    failed. *)
Theorem cursor_setup_retries_once st :
  reachable data st -> retriedOnce st.
Proof.
  induction 1 as [env store rig camera | env i st _ IH].
  - unfold init. apply retriedOnce_setupCursor.
    unfold retriedOnce. unfold_component. split_cases; auto.
  - destruct i; unfold step.
    + by apply retriedOnce_tick.
    + revert IH. unfold play. intros IH.
      apply (retriedOnce_setupCursor env) in IH. revert IH.
      generalize (setupCursor env st). intros s. unfold retriedOnce.
      unfold_methods. split_cases; auto.
    + revert IH. unfold retriedOnce. unfold_methods. split_cases; auto.
    + destruct (pendingSetupCursor (outside st)) as [|n] eqn:E; [exact IH |].
      apply retriedOnce_setupCursor. revert IH. unfold retriedOnce.
      rewrite E. unfold_methods. simpl. intros [Hle Hz]. split; [lia |].
      intros Hr. specialize (Hz Hr). lia.
    + apply dispatch_preserves; [| exact IH].
      intros h s. apply retriedOnce_runHandler.
    + exact IH.
    + exact IH.
Qed.

Lemma NoDup_addEventListener l ls :
  NoDup ls -> NoDup (addEventListener l ls).
Proof.
  intros Hnd. unfold addEventListener. case_bool_decide; [exact Hnd |].
  apply NoDup_app. split_and!; [exact Hnd | | apply NoDup_singleton].
  intros x Hx ->%list_elem_of_singleton. contradiction.
Qed.

Lemma NoDup_removeEventListener l ls :
  NoDup ls -> NoDup (removeEventListener l ls).
Proof.
  intros Hnd. unfold removeEventListener.
  apply NoDup_ListNoDup, List.NoDup_filter. by apply NoDup_ListNoDup.
Qed.

#[local] Hint Resolve NoDup_addEventListener NoDup_removeEventListener : core.





Lemma eventsBalanced_tick time deltaTime env st :
  eventsBalanced st -> eventsBalanced (tick data time deltaTime env st).
Proof.
  unfold eventsBalanced. intros Hb.
  destruct (transitioning (transitionState st)) eqn:Htr.
  - destruct (tick_transitioning data time deltaTime env st Htr) as (Ht & _ & He).
    destruct (transitionStep_running data deltaTime st Htr)
      as (_ & _ & _ & Hrun & Hstop).
    rewrite Ht.
    destruct (Qlt_le_dec (transitionProgress (transitionState st)
                          + deltaTime * transitionSpeed data) 1) as [Hlt|Hle].
    + destruct (Hrun Hlt) as (-> & _ & _ & Hem). rewrite <- He in Hem.
      by rewrite !(emittedCount_same _ _ _ Hem).
    + destruct (Hstop Hle) as (-> & _ & _ & Hem). rewrite <- He in Hem.
      rewrite !(emittedCount_app _ _ _ _ Hem). simpl. lia.
  - destruct (tick_idle data time deltaTime env st Htr) as (-> & _ & He).
    rewrite Htr. by rewrite !(emittedCount_same _ _ _ He).
Qed.

Lemma eventsBalanced_wiring l event env st :
  l ∈ wiring ->
  eventsBalanced st -> eventsBalanced (runHandler data (l_handler l) event env st).
Proof.
  intros Hl Hb. apply list_elem_of_In in Hl. simpl in Hl.
  repeat (destruct Hl as [<-|Hl]); try contradiction; simpl.
  - revert Hb. unfold eventsBalanced, emittedCount.
    assert (emitted (outside (onEnterVR env st)) = emitted (outside st)
            /\ transitioning (transitionState (onEnterVR env st)) = false)
      as [-> ->] by (unfold_methods; split_cases; auto).
    destruct (transitioning (transitionState st)); lia.
  - exact Hb.
  - revert Hb. unfold eventsBalanced, emittedCount.
    assert (emitted (outside (onVisibilityChange env st)) = emitted (outside st)
            /\ transitionState (onVisibilityChange env st) = transitionState st)
      as [-> ->] by (unfold_methods; split_cases; auto).
    auto.
  - revert Hb. unfold eventsBalanced.
    destruct (cursorClickHandler_effect data env st) as [[-> He] | [-> He]].
    + by rewrite !(emittedCount_same _ _ _ He).
    + rewrite !(emittedCount_app _ _ _ _ He). simpl.
      destruct (transitioning (transitionState st)); lia.
  - exact Hb.
Qed.

(** X20. The events are balanced in every reachable state: ["navigation-end"]
    has been emitted at most as often as ["navigation-start"], and strictly
    less often while a transition is in progress. *)
Theorem navigation_events_are_balanced st :
  reachable data st -> eventsBalanced st.
Proof.
  induction 1 as [env store rig camera | env i st Hreach IH].
  - unfold eventsBalanced, emittedCount.
    assert (emitted (outside (init data env store rig camera)) = []
            /\ transitioning (transitionState (init data env store rig camera)) = false)
      as [-> ->] by (unfold_component; split_cases; auto).
    simpl. lia.
  - destruct i; unfold step.
    + by apply eventsBalanced_tick.
    + revert IH. unfold eventsBalanced, emittedCount.
      assert (emitted (outside (play env st)) = emitted (outside st)
              /\ transitionState (play env st) = transitionState st)
        as [-> ->] by (unfold_methods; split_cases; auto).
      auto.
    + revert IH. unfold eventsBalanced, emittedCount. simpl.
      destruct (transitioning (transitionState st)); lia.
    + revert IH. unfold eventsBalanced, emittedCount.
      destruct (pendingSetupCursor (outside st)); [auto |].
      assert (forall s, emitted (outside (setupCursor env s)) = emitted (outside s)
                        /\ transitionState (setupCursor env s) = transitionState s)
        as Hs by (intros s; unfold_methods; split_cases; auto).
      destruct (Hs (set_pending n st)) as [-> ->]. auto.
    + apply dispatch_wired; [by apply reachable_wired in Hreach | | exact IH].
      intros l s Hl _. by apply eventsBalanced_wiring.
    + exact IH.
    + exact IH.
Qed.

End RunInvariants.

(** ** The pinch adapter *)

Section Pinch.
Context `{!Three}.
Variable pdata : PinchData.

Lemma p_getTeleportPosition_ring penv ps r :
  p_getTeleportPosition penv (set_teleportRing r ps) = p_getTeleportPosition penv ps.
Proof. reflexivity. Qed.

Lemma p_getTeleportPosition_hit penv ps h :
  head (intersectObjects (hand penv) (p_rayCastObjects ps) recursive_default) = Some h ->
  p_getTeleportPosition penv ps
  = if collision (userDataOf (p_userData ps) (object h)) then Some (point h) else None.
Proof.
  unfold p_getTeleportPosition. intros Hhit.
  destruct (intersectObjects (hand penv) (p_rayCastObjects ps) recursive_default);
    [discriminate |].
  simpl in Hhit. by injection Hhit as ->.
Qed.

(** X21. The pinch resolver tests neither the navmesh flag nor the angle of the
    surface: on a nearest surface that is a collidable navmesh but steeper
    than [landingMaxAngle], where the cursor resolver returns no landing,
    the pinch resolver returns the intersection point. *)
Theorem pinch_lands_where_cursor_rejects data env st penv ps rc h :
  reachable data st ->
  cursorRay env st = Some rc ->
  nearestSceneHit rc st = Some h ->
  head (intersectObjects (hand penv) (p_rayCastObjects ps) recursive_default) = Some h ->
  p_userData ps = userData st ->
  collidableNavmesh st (object h) ->
  landingMaxAngle data < landingAngle (landingNormal data) h ->
  (getTeleportPositionFromCursor data env st).1 = None
  /\ p_getTeleportPosition penv ps = Some (point h).
Proof.
  intros Hreach Hray Hhit Hp Hstore [Hnav Hcol] Hangle. split.
  - apply reachable_referenceNormal in Hreach. unfold referenceIsConfigured in Hreach.
    apply (resolver_with_ray data) in Hray as [-> _].
    unfold resolveWith, nearestSceneHit, occlusionMeshes in *.
    destruct (Nat.eqb (length (rayCastObjects (registry st))) 0); [reflexivity |].
    destruct (intersectObjects rc (default [] (allSceneMeshes (registry st))) true)
      as [|x rest]; [reflexivity |].
    simpl in Hhit. injection Hhit as ->. rewrite Hnav. simpl.
    destruct (isValidNormalsAngle data st (face_normal h) (object h))
      eqn:E; [| reflexivity].
    apply isValidNormalsAngle_iff in E. rewrite Hreach in E.
    unfold landingAngle in Hangle. lra.
  - rewrite (p_getTeleportPosition_hit _ _ _ Hp), Hstore. by rewrite Hcol.
Qed.

Lemma animate_rigPosition a t ps :
  rigPosition (animate a t ps)
  = if Qlt_bool (Math_min ((t - startTime a) / 500) 1) 1
    then lerpVectors (startPos a) (endPos a)
                     (easeInOutQuad (Math_min ((t - startTime a) / 500) 1))
    else endPos a.
Proof. unfold animate, easeInOutQuad. by destruct (Qlt_bool _ 1). Qed.

Lemma animate_animations a t ps :
  animations (animate a t ps)
  = if Qlt_bool (Math_min ((t - startTime a) / 500) 1) 1
    then animations ps ++ [a] else animations ps.
Proof. unfold animate. by destruct (Qlt_bool _ 1). Qed.

Lemma animate_frame a t ps :
  p_rayCastObjects (animate a t ps) = p_rayCastObjects ps
  /\ teleportRing (animate a t ps) = teleportRing ps
  /\ lastUpdate (animate a t ps) = lastUpdate ps
  /\ p_userData (animate a t ps) = p_userData ps.
Proof. unfold animate. by destruct (Qlt_bool _ 1). Qed.

Lemma pinch_progress_running a t :
  t < startTime a + 500 -> Qlt_bool (Math_min ((t - startTime a) / 500) 1) 1 = true.
Proof.
  intros Ht. apply Qlt_bool_iff. unfold Math_min.
  assert ((t - startTime a) / 500 < 1) as Hlt.
  { apply Qlt_shift_div_r; lra. }
  destruct (Qle_bool _ 1) eqn:E; [lra |].
  apply Qle_bool_false_iff in E. lra.
Qed.

Lemma pinch_progress_done a t :
  startTime a + 500 <= t -> Qlt_bool (Math_min ((t - startTime a) / 500) 1) 1 = false.
Proof.
  intros Ht. apply Qlt_bool_false_iff. unfold Math_min.
  assert (1 <= (t - startTime a) / 500) as Hle.
  { apply Qle_shift_div_l; lra. }
  destruct (Qle_bool _ 1) eqn:E; [| lra].
  exact Hle.
Qed.

(** X22. A pinch animation is timed, not measured by distance. A call of
    [animate] with less than 500 ms elapsed puts the rig on the
    interpolation of the start and the end position at the eased fraction
    of the time and asks for another frame; a call with 500 ms or more
    elapsed puts the rig on the end position itself and asks for none. *)
Theorem pinch_animation_lasts_500ms a t ps :
  (t - startTime a < 500 ->
     rigPosition (animate a t ps)
     = lerpVectors (startPos a) (endPos a)
                   (easeInOutQuad ((t - startTime a) / 500))
     /\ animations (animate a t ps) = animations ps ++ [a])
  /\ (500 <= t - startTime a ->
     rigPosition (animate a t ps) = endPos a
     /\ animations (animate a t ps) = animations ps).
Proof.
  split; intros Ht.
  - rewrite animate_rigPosition, animate_animations, pinch_progress_running by lra.
    split; [| reflexivity].
    assert ((t - startTime a) / 500 < 1) as H1.
    { apply Qlt_shift_div_r; lra. }
    unfold Math_min.
    destruct (Qle_bool ((t - startTime a) / 500) 1) eqn:E; [reflexivity |].
    apply Qle_bool_false_iff in E. lra.
  - by rewrite animate_rigPosition, animate_animations, pinch_progress_done by lra.
Qed.

Lemma animateAll_app k l1 l2 env ps :
  animateAll (k) (l1 ++ l2) env ps
  = animateAll (k + length l1) l2 env (animateAll k l1 env ps).
Proof.
  revert k ps. induction l1 as [|a r IH]; intros k ps; simpl.
  - by rewrite Nat.add_0_r.
  - rewrite IH. f_equal. lia.
Qed.

(** X23. When several pinch animations overlap, the rig follows the one that
    was started last: in every animation frame the callbacks run in the
    order of their start, each overwrites the position of the rig, and the
    position the frame leaves is the one the last callback computes. *)
Theorem latest_pinch_animation_wins env ps earlier a :
  animations ps = earlier ++ [a] ->
  rigPosition (animationFrame env ps)
  = rigPosition (animate a (performance_now env (length earlier)) ps).
Proof.
  intros Ha. unfold animationFrame. rewrite Ha, animateAll_app. simpl.
  by rewrite !animate_rigPosition.
Qed.

(** X24. Releasing a pinch while the ring is shown hides the ring and, when a
    camera rig is configured, starts an animation of the rig from where it
    is to the position of the ring; the first step of the animation is
    taken at once. *)
Theorem pinch_release_teleports env ps :
  shown (teleportRing ps) = true ->
  p_cameraRig pdata = true ->
  performance_now env 1 < performance_now env 0 + 500 ->
  let a := mkAnimation (performance_now env 0) (rigPosition ps) (position (teleportRing ps)) in
  let ps' := onPinchEnded pdata env ps in
  shown (teleportRing ps') = false
  /\ position (teleportRing ps') = position (teleportRing ps)
  /\ animations ps' = animations ps ++ [a]
  /\ rigPosition ps'
     = lerpVectors (rigPosition ps) (position (teleportRing ps))
         (easeInOutQuad ((performance_now env 1 - performance_now env 0) / 500)).
Proof.
  intros Hshown Hrig Hnow. unfold onPinchEnded, teleportToCameraRig.
  rewrite Hshown, Hrig. cbn [negb]. cbn zeta.
  set (a := mkAnimation _ _ _).
  destruct (animate_frame a (performance_now env 1) ps) as (_ & Hring & _).
  cbn [set_teleportRing teleportRing shown position animations rigPosition].
  rewrite Hring, animate_animations, animate_rigPosition.
  rewrite (pinch_progress_running a) by exact Hnow.
  repeat split.
  unfold Math_min. cbn [startTime startPos endPos a].
  assert ((performance_now env 1 - performance_now env 0) / 500 < 1) as H1.
  { apply Qlt_shift_div_r; lra. }
  destruct (Qle_bool _ 1) eqn:E; [reflexivity |].
  apply Qle_bool_false_iff in E. lra.
Qed.

(** X25. After a frame a ring that is shown marks a target: it was shown
    before the frame, and it sits on the point the pinch resolver returns
    for the hand as it is in this frame. A frame never shows the ring. *)
Theorem pinch_ring_marks_a_target env ps :
  shown (teleportRing (p_tick pdata env ps)) = true ->
  shown (teleportRing ps) = true
  /\ p_getTeleportPosition env (p_tick pdata env ps)
     = Some (position (teleportRing (p_tick pdata env ps))).
Proof.
  unfold p_tick.
  set (ps1 := match lastUpdate ps with | None => _ | Some l => _ end).
  assert (shown (teleportRing ps1) = shown (teleportRing ps)) as Hs.
  { subst ps1. unfold p_updateRaycastObjects.
    repeat case_match; reflexivity. }
  destruct (shown (teleportRing ps1)) eqn:E.
  - destruct (p_getTeleportPosition env ps1) eqn:Eg.
    + intros _. split; [by rewrite <- Hs |].
      by rewrite p_getTeleportPosition_ring, Eg.
    + simpl. discriminate.
  - intros H1. rewrite H1 in E. discriminate.
Qed.

End Pinch.

(** ** The click adapter *)

Lemma c_count_app name c l :
  length (List.filter (String.eqb name) (c_emitted c ++ l))
  = (c_count name c + length (List.filter (String.eqb name) l))%nat.
Proof. unfold c_count. by rewrite List.filter_app, length_app. Qed.

(** X26. The click adapter emits ["navigation-start"] and ["navigation-end"]
    in pairs: at any moment the starts emitted so far are the ends
    emitted so far plus the timers still to fire, so an end never comes
    before its start and every start gets its end. *)
Theorem click_teleport_events_are_paired inputs p :
  let c := foldl (fun c i => c_step i c) (mkClickTeleport p [] 0) inputs in
  c_count "navigation-start" c = (c_count "navigation-end" c + c_pending c)%nat.
Proof.
  cbn zeta. induction inputs as [|i r IH] using rev_ind; [reflexivity |].
  rewrite foldl_app. cbn [foldl].
  set (c := foldl _ _ r) in *.
  destruct i as [rig [q|] |]; cbn [c_step c_onClick c_timeout].
  - destruct rig; [| exact IH].
    unfold c_count at 1 2. cbn [c_emitted c_pending].
    rewrite !c_count_app. simpl. lia.
  - exact IH.
  - unfold c_timeout. destruct (c_pending c) eqn:E; [by rewrite E |].
    unfold c_count at 1 2. cbn [c_emitted c_pending].
    rewrite !c_count_app. simpl. lia.
Qed.

(** ** The go-to component *)

Section GoToFacts.
Context `{!Three}.
Variable setFromEuler : Vector3 -> Quaternion.
Variable slerpNonFinite : Quaternion -> Quaternion -> NonFinite -> Quaternion.
Variable gdata : GoToData.

Lemma goTo_progress_running g env :
  0 < rotationDuration g ->
  g_now env - rotationStartTime g < rotationDuration g ->
  Math_min ((g_now env - rotationStartTime g) / rotationDuration g) 1
  = (g_now env - rotationStartTime g) / rotationDuration g
  /\ (g_now env - rotationStartTime g) / rotationDuration g < 1.
Proof.
  intros Hd Hlt.
  assert ((g_now env - rotationStartTime g) / rotationDuration g < 1) as H1.
  { apply Qlt_shift_div_r; lra. }
  split; [| exact H1]. unfold Math_min.
  destruct (Qle_bool _ 1) eqn:E; [reflexivity |].
  apply Qle_bool_false_iff in E. lra.
Qed.

Lemma goTo_progress_done g env :
  0 < rotationDuration g ->
  rotationDuration g <= g_now env - rotationStartTime g ->
  Qle_bool 1 (Math_min ((g_now env - rotationStartTime g) / rotationDuration g) 1)
  = true.
Proof.
  intros Hd Hle. apply Qle_bool_iff.
  assert (1 <= (g_now env - rotationStartTime g) / rotationDuration g) as H1.
  { apply Qle_shift_div_l; lra. }
  unfold Math_min. destruct (Qle_bool _ 1); lra.
Qed.

Lemma rotationDuration_nonzero g :
  0 < rotationDuration g -> Qeq_bool (rotationDuration g) 0 = false.
Proof.
  intros Hd. destruct (Qeq_bool _ 0) eqn:E; [| reflexivity].
  apply Qeq_bool_iff in E. lra.
Qed.

Lemma g_tick_done env g :
  animatingRotation g = true ->
  0 < rotationDuration g ->
  rotationDuration g <= g_now env - rotationStartTime g ->
  g_rigQuaternion (g_tick slerpNonFinite env g) = g_transitionRotEnd g
  /\ animatingRotation (g_tick slerpNonFinite env g) = false.
Proof.
  intros Hanim Hd He. unfold g_tick.
  rewrite Hanim, rotationDuration_nonzero by exact Hd.
  rewrite (goTo_progress_done g env Hd He). split; reflexivity.
Qed.

(** What a frame leaves alone, whatever the duration. *)
Lemma g_tick_frame env g :
  g_emitted (g_tick slerpNonFinite env g) = g_emitted g
  /\ model_loaded (g_tick slerpNonFinite env g) = model_loaded g
  /\ animationcomplete__go (g_tick slerpNonFinite env g) = animationcomplete__go g.
Proof.
  unfold g_tick.
  destruct (animatingRotation g); [| auto].
  destruct (Qeq_bool (rotationDuration g) 0).
  - destruct (Qlt_bool 0 _); auto.
  - destruct (Qle_bool 1 _); auto.
Qed.

(** X27. While the rotation of a go-to move is animated, a frame before the
    end of the duration puts the rig on the spherical interpolation of
    the start and the end orientation at the eased fraction of the time
    elapsed, with the easing of the cursor teleport, and the animation
    goes on; a frame at the end of the duration or later puts the rig on
    the end orientation and ends the animation. *)
Theorem go_to_rotation_follows_easing env g :
  animatingRotation g = true ->
  0 < rotationDuration g ->
  let elapsed := g_now env - rotationStartTime g in
  (elapsed < rotationDuration g ->
     exists e,
       e == easeInOutQuad (elapsed / rotationDuration g)
       /\ g_rigQuaternion (g_tick slerpNonFinite env g)
          = slerpQuaternions (g_transitionRotStart g) (g_transitionRotEnd g) e
       /\ animatingRotation (g_tick slerpNonFinite env g) = true)
  /\ (rotationDuration g <= elapsed ->
     g_rigQuaternion (g_tick slerpNonFinite env g) = g_transitionRotEnd g
     /\ animatingRotation (g_tick slerpNonFinite env g) = false).
Proof.
  intros Hanim Hd elapsed. split; intros He; [| by apply g_tick_done].
  unfold g_tick. rewrite Hanim, rotationDuration_nonzero by exact Hd.
  destruct (goTo_progress_running g env Hd He) as [-> H1].
  destruct (Qle_bool 1 _) eqn:E; [apply Qle_bool_iff in E; lra |].
  eexists. split; [| split; reflexivity].
  unfold easeInOutQuad. fold elapsed.
  destruct (Qlt_bool _ (1 # 2)); ring.
Qed.

(** X28. A go-to move with a rotation beyond the threshold ends with the rig
    on the orientation asked for, whichever comes first: a frame when the
    duration has elapsed since the click, or the end of the position
    animation. *)
Theorem go_to_rotation_ends_on_target env env' g :
  hasRotation gdata = true ->
  0 < g_duration gdata ->
  let clicked := g_onClick setFromEuler gdata true env g in
  (g_now env + g_duration gdata <= g_now env' ->
     g_rigQuaternion (g_tick slerpNonFinite env' clicked)
     = setFromEuler (g_rotation gdata)
     /\ animatingRotation (g_tick slerpNonFinite env' clicked) = false)
  /\ g_rigQuaternion
       (g_step setFromEuler slerpNonFinite gdata AnimationComplete env' clicked)
     = setFromEuler (g_rotation gdata)
  /\ animatingRotation
       (g_step setFromEuler slerpNonFinite gdata AnimationComplete env' clicked)
     = false.
Proof.
  intros Hrot Hd clicked.
  assert (animatingRotation clicked = true
          /\ rotationDuration clicked = g_duration gdata
          /\ rotationStartTime clicked = g_now env
          /\ g_transitionRotEnd clicked = setFromEuler (g_rotation gdata)
          /\ animationcomplete__go clicked = true) as (Ha & Hdur & Hst & Hend & Hl).
  { subst clicked. unfold g_onClick, moveCamera. rewrite Hrot. simpl. auto. }
  split.
  - intros Hnow. rewrite <- Hend.
    apply g_tick_done; [exact Ha | rewrite Hdur; lra | rewrite Hdur, Hst; lra].
  - unfold g_step. rewrite Hl.
    unfold onAnimEnd. cbn [animatingRotation]. rewrite Ha.
    cbn [animatingRotation rotationStartTime rotationDuration g_transitionRotStart
         g_transitionRotEnd g_tempVector3 g_tunnelElement g_rigQuaternion].
    rewrite Hend.
    destruct (_ && unloadHasMesh env'); split; reflexivity.
Qed.

Lemma hasRotation_false :
  Math_abs (vx (g_rotation gdata)) <= 1 # 1000 ->
  Math_abs (vy (g_rotation gdata)) <= 1 # 1000 ->
  Math_abs (vz (g_rotation gdata)) <= 1 # 1000 ->
  hasRotation gdata = false.
Proof.
  intros Hx Hy Hz. unfold hasRotation.
  apply Qlt_bool_false_iff in Hx, Hy, Hz. by rewrite Hx, Hy, Hz.
Qed.

Lemma iter_tunnelUpAndComplete n g :
  animatingRotation (Nat.iter n (tunnelUpAndComplete gdata) g) = animatingRotation g
  /\ g_rigQuaternion (Nat.iter n (tunnelUpAndComplete gdata) g) = g_rigQuaternion g
  /\ animationcomplete__go (Nat.iter n (tunnelUpAndComplete gdata) g)
     = animationcomplete__go g
  /\ model_loaded (Nat.iter n (tunnelUpAndComplete gdata) g) = model_loaded g
  /\ completions (Nat.iter n (tunnelUpAndComplete gdata) g) = (completions g + n)%nat.
Proof.
  induction n as [|n (Ha & Hq & Hl & Hm & Hc)]; simpl.
  - repeat split; lia.
  - repeat split; try assumption.
    unfold completions in *. cbn [tunnelUpAndComplete g_emitted].
    rewrite List.filter_app, length_app, Hc. cbn [List.filter].
    change (String.eqb "go-to-complete" "go-to-complete") with true.
    cbn [length]. lia.
Qed.

Lemma still_step i env g :
  hasRotation gdata = false ->
  animatingRotation g = false ->
  animatingRotation (g_step setFromEuler slerpNonFinite gdata i env g) = false
  /\ g_rigQuaternion (g_step setFromEuler slerpNonFinite gdata i env g)
     = g_rigQuaternion g.
Proof.
  intros Hrot Ha. destruct i as [[|] | | | |]; cbn [g_step].
  - unfold g_onClick, moveCamera. rewrite Hrot. by simpl.
  - by simpl.
  - unfold g_tick. by rewrite Ha.
  - unfold hideTunnel. by destruct (g_tunnelElement g).
  - destruct (animationcomplete__go g); [| by split].
    unfold onAnimEnd, tunnelUpAndComplete. cbn [animatingRotation]. rewrite Ha.
    by destruct (_ && unloadHasMesh env).
  - destruct (iter_tunnelUpAndComplete (model_loaded g)
      (mkGoTo (animatingRotation g) (rotationStartTime g) (rotationDuration g)
              (g_transitionRotStart g) (g_transitionRotEnd g) (g_tempVector3 g)
              (g_tunnelElement g) (g_rigQuaternion g)
              (animation__go g) (animationcomplete__go g) 0
              (animation__down g) (animation__up g) (tunnelVisible g)
              (gltf_model g) (g_emitted g))) as (-> & -> & _).
    by simpl.
Qed.

(** X29. A go-to whose rotation is within 0.001 degrees of zero on every axis
    never turns the rig: whatever is clicked and whatever events and
    frames follow, the rig keeps the orientation it had. *)
Theorem go_to_small_rotation_is_ignored inputs q :
  Math_abs (vx (g_rotation gdata)) <= 1 # 1000 ->
  Math_abs (vy (g_rotation gdata)) <= 1 # 1000 ->
  Math_abs (vz (g_rotation gdata)) <= 1 # 1000 ->
  g_rigQuaternion
    (g_run setFromEuler slerpNonFinite gdata inputs (g_init gdata q)) = q
  /\ animatingRotation
       (g_run setFromEuler slerpNonFinite gdata inputs (g_init gdata q)) = false.
Proof.
  intros Hx Hy Hz. pose proof (hasRotation_false Hx Hy Hz) as Hrot.
  assert (forall g, animatingRotation g = false ->
            g_rigQuaternion (g_run setFromEuler slerpNonFinite gdata inputs g)
            = g_rigQuaternion g
            /\ animatingRotation (g_run setFromEuler slerpNonFinite gdata inputs g)
               = false) as Hrun.
  { unfold g_run.
    induction inputs as [|[i env] rest IH]; intros g Ha; cbn [foldl fst snd].
    - by split.
    - destruct (still_step i env g Hrot Ha) as (Ha1 & Hq1).
      destruct (IH _ Ha1) as (Hq' & Ha'). split; [congruence | exact Ha']. }
  by apply Hrun.
Qed.

Lemma completions_emit g l :
  length (List.filter (String.eqb "go-to-complete") (g_emitted g ++ l))
  = (completions g + length (List.filter (String.eqb "go-to-complete") l))%nat.
Proof. unfold completions. by rewrite List.filter_app, length_app. Qed.

Lemma completions_step i env g :
  (completions (g_step setFromEuler slerpNonFinite gdata i env g)
   + model_loaded (g_step setFromEuler slerpNonFinite gdata i env g)
   + (if animationcomplete__go (g_step setFromEuler slerpNonFinite gdata i env g)
      then 1 else 0)
   <= completions g + model_loaded g + (if animationcomplete__go g then 1 else 0)
      + effectiveClicks [(i, env)])%nat.
Proof.
  assert (effectiveClicks [(GClick true, env)] = 1%nat) as Hc1 by reflexivity.
  assert (forall j, j <> GClick true -> effectiveClicks [(j, env)] = 0%nat) as Hc0.
  { intros [[|] | | | |] Hj; try reflexivity. congruence. }
  destruct i as [[|] | | | |]; cbn [g_step];
    rewrite ?Hc1, ?Hc0 by congruence.
  - unfold g_onClick, moveCamera, completions.
    cbn [negb].
    destruct (hasRotation gdata), (animationcomplete__go g);
      cbn [g_emitted model_loaded animationcomplete__go]; lia.
  - change (g_onClick setFromEuler gdata false env g) with g. lia.
  - destruct (g_tick_frame env g) as (He & -> & ->).
    unfold completions. rewrite He. lia.
  - unfold hideTunnel, completions.
    destruct (g_tunnelElement g);
      cbn [g_emitted model_loaded animationcomplete__go]; lia.
  - destruct (animationcomplete__go g) eqn:El; [| rewrite El; lia].
    unfold onAnimEnd, tunnelUpAndComplete. cbn [animatingRotation].
    destruct (animatingRotation g), (_ && unloadHasMesh env);
      unfold completions at 1;
      cbn [g_emitted model_loaded animationcomplete__go];
      rewrite ?completions_emit; unfold completions;
      cbn [g_emitted model_loaded animationcomplete__go List.filter length];
      change (String.eqb "go-to-complete" "go-to-complete") with true;
      cbn [length]; lia.
  - destruct (iter_tunnelUpAndComplete (model_loaded g)
      (mkGoTo (animatingRotation g) (rotationStartTime g) (rotationDuration g)
              (g_transitionRotStart g) (g_transitionRotEnd g) (g_tempVector3 g)
              (g_tunnelElement g) (g_rigQuaternion g)
              (animation__go g) (animationcomplete__go g) 0
              (animation__down g) (animation__up g) (tunnelVisible g)
              (gltf_model g) (g_emitted g))) as (_ & _ & -> & -> & ->).
    unfold completions. cbn [g_emitted model_loaded animationcomplete__go]. lia.
Qed.

(** X30. ["go-to-complete"] is never emitted more often than the entity was
    clicked with an intersection: in any run from [init], whatever the
    duration, the completions emitted, those waiting for a model to load
    and the one waiting for the position animation never outnumber the
    clicks. *)
Theorem go_to_completions_need_clicks inputs q :
  (completions (g_run setFromEuler slerpNonFinite gdata inputs (g_init gdata q))
   + model_loaded (g_run setFromEuler slerpNonFinite gdata inputs (g_init gdata q))
   + (if animationcomplete__go
           (g_run setFromEuler slerpNonFinite gdata inputs (g_init gdata q))
      then 1 else 0)
   <= effectiveClicks inputs)%nat.
Proof.
  assert (forall g,
    (completions (g_run setFromEuler slerpNonFinite gdata inputs g)
     + model_loaded (g_run setFromEuler slerpNonFinite gdata inputs g)
     + (if animationcomplete__go (g_run setFromEuler slerpNonFinite gdata inputs g)
        then 1 else 0)
     <= completions g + model_loaded g + (if animationcomplete__go g then 1 else 0)
        + effectiveClicks inputs)%nat) as Hrun.
  { unfold g_run.
    induction inputs as [|[i env] rest IH]; intros g; cbn [foldl fst snd].
    - unfold effectiveClicks. cbn [List.filter length]. lia.
    - specialize (IH (g_step setFromEuler slerpNonFinite gdata i env g)).
      pose proof (completions_step i env g) as E.
      unfold effectiveClicks in *. cbn [List.filter length] in *.
      destruct (match (i, env).1 with GClick true => true | _ => false end);
        cbn [length] in *; lia. }
  specialize (Hrun (g_init gdata q)).
  change (completions (g_init gdata q)) with 0%nat in Hrun.
  change (model_loaded (g_init gdata q)) with 0%nat in Hrun.
  change (animationcomplete__go (g_init gdata q)) with false in Hrun.
  cbv iota in Hrun. lia.
Qed.

End GoToFacts.

(** ** The properties above on the scenes *)

Section MoreWitnesses.
Import Scenes.
Import MoreScenes.
#[local] Existing Instance flat.

Lemma flags_are_never_cleared_witness :
  flagsKept (userDataOf (userData onFloor) floorMesh)
            (userDataOf (userData (run defaults [(floorUntagged, Tick 100 16)] onFloor))
                        floorMesh).
Proof.
  apply (flags_are_never_cleared defaults [(floorUntagged, Tick 100 16)] onFloor
           floorMesh).
  vm_compute. discriminate.
Defined.

Lemma raycast_exclude_takes_effect_on_rebuild_witness :
  occlusionMeshes (step defaults boxOverFloor (RaycastExcludeInit boxEl) underBox)
  = occlusionMeshes underBox
  /\ boxMesh ∉ occlusionMeshes
       (updateRaycastObjects defaults boxOverFloor
          (run defaults oneFrame
             (step defaults boxOverFloor (RaycastExcludeInit boxEl) underBox))).
Proof.
  apply (raycast_exclude_takes_effect_on_rebuild defaults boxEl boxOverFloor underBox
           oneFrame boxOverFloor boxMesh boxMesh).
  - vm_compute. left.
  - reflexivity.
  - vm_compute. discriminate.
Defined.



Lemma lost_all_warning_repeats_witness :
  warnings (outside (updateRaycastObjects ignoringWalls wallOnly
                       (updateRaycastObjects ignoringWalls wallOnly besideWall)))
  = warnings (outside (updateRaycastObjects ignoringWalls wallOnly besideWall))
    ++ [lostAllWarning].
Proof.
  apply (lost_all_warning_repeats ignoringWalls wallOnly besideWall).
  - vm_compute. reflexivity.
  - vm_compute. reflexivity.
  - vm_compute. reflexivity.
  - vm_compute. discriminate.
Defined.

Lemma cursor_landing_is_sound_witness :
  exists rc firstHit,
    cursorRay floorOnly onFloor = Some rc
    /\ rayCastObjects (registry onFloor) <> []
    /\ nearestSceneHit rc onFloor = Some firstHit
    /\ collidableNavmesh onFloor (object firstHit)
    /\ landingAngle (referenceNormal onFloor) firstHit <= landingMaxAngle defaults
    /\ landing_point floorLanding = point firstHit
    /\ deref (getTeleportPositionFromCursor defaults floorOnly onFloor).2
             (landing_normal floorLanding)
       = worldNormal firstHit.
Proof.
  apply (cursor_landing_is_sound defaults floorOnly onFloor floorLanding
           (getTeleportPositionFromCursor defaults floorOnly onFloor).2).
  vm_compute. reflexivity.
Defined.

Lemma screen_resolver_blocked_witness :
  (getTeleportPosition ignoringWalls boxOverFloor 400 300 underWall).1 = None.
Proof.
  apply (screen_resolver_blocked ignoringWalls boxOverFloor 400 300 underWall boxHit).
  - vm_compute. reflexivity.
  - left. vm_compute. reflexivity.
Defined.

Lemma screen_resolver_lands_witness :
  getTeleportPosition defaults floorOnly 400 300 onFloor
  = (Some (mkLanding (point floorHit) TempVector3),
     set_tempVector3 (worldNormal floorHit) onFloor).
Proof.
  apply (screen_resolver_lands defaults floorOnly 400 300 onFloor floorHit).
  - vm_compute. discriminate.
  - reflexivity.
  - reflexivity.
  - vm_compute. reflexivity.
  - vm_compute. reflexivity.
  - vm_compute. discriminate.
Defined.

Lemma hover_cache_shrinks_normal_witness :
  hover (tick defaults 110 10 floorOnly hovering) = hover hovering
  /\ deref (tick defaults 110 10 floorOnly hovering) (landing_normal floorLanding)
     = multiplyScalar (deref hovering (landing_normal floorLanding)) (1 # 100)
  /\ teleportIndicator (tick defaults 110 10 floorOnly hovering)
     = mkPose (add (landing_point floorLanding)
                   (multiplyScalar (deref hovering (landing_normal floorLanding))
                                   (1 # 100)))
              (setFromUnitVectors upVector
                 (multiplyScalar (deref hovering (landing_normal floorLanding))
                                 (1 # 100)))
              true.
Proof.
  apply (hover_cache_shrinks_normal defaults 110 10 floorOnly hovering floorLanding).
  - vm_compute. reflexivity.
  - vm_compute. reflexivity.
  - vm_compute. discriminate.
  - vm_compute. reflexivity.
  - reflexivity.
Defined.

Lemma hover_preview_of_a_landing_witness :
  cachedTeleportPos (hover (tick defaults 120 20 floorOnly hovering)) = Some floorLanding
  /\ lastTeleportCheck (hover (tick defaults 120 20 floorOnly hovering)) = 120
  /\ deref (tick defaults 120 20 floorOnly hovering) (landing_normal floorLanding)
     = multiplyScalar
         (deref (getTeleportPositionFromCursor defaults floorOnly hovering).2
                (landing_normal floorLanding)) (1 # 100)
  /\ teleportIndicator (tick defaults 120 20 floorOnly hovering)
     = mkPose (add (landing_point floorLanding)
                   (multiplyScalar
                      (deref (getTeleportPositionFromCursor defaults floorOnly hovering).2
                             (landing_normal floorLanding)) (1 # 100)))
              (setFromUnitVectors upVector
                 (multiplyScalar
                    (deref (getTeleportPositionFromCursor defaults floorOnly hovering).2
                           (landing_normal floorLanding)) (1 # 100)))
              true.
Proof.
  apply (hover_preview_of_a_landing defaults 120 20 floorOnly hovering floorLanding
           (getTeleportPositionFromCursor defaults floorOnly hovering).2).
  - vm_compute. reflexivity.
  - vm_compute. reflexivity.
  - vm_compute. reflexivity.
  - vm_compute. reflexivity.
  - reflexivity.
Defined.

Lemma click_starts_transition_witness :
  transitionState (cursorClickHandler defaults floorOnly hovering)
  = mkTransition true 0 (position (camRig hovering)) (point floorHit)
      (quaternion (camRig hovering))
      (if alignToSurface defaults
       then setFromUnitVectors upVector (worldNormal floorHit)
       else quaternion (camRig hovering))
      (worldNormal floorHit)
  /\ camRig (cursorClickHandler defaults floorOnly hovering) = camRig hovering
  /\ emitted (outside (cursorClickHandler defaults floorOnly hovering))
     = emitted (outside hovering) ++ ["navigation-start"]
  /\ position (teleportIndicator (cursorClickHandler defaults floorOnly hovering))
     = point floorHit
  /\ shown (teleportIndicator (cursorClickHandler defaults floorOnly hovering))
     = shown (teleportIndicator hovering).
Proof.
  apply (click_starts_transition defaults floorOnly hovering downRay floorHit).
  - vm_compute. reflexivity.
  - vm_compute. discriminate.
  - vm_compute. reflexivity.
  - split; vm_compute; reflexivity.
  - vm_compute. discriminate.
Defined.

Lemma cursor_setup_retries_once_witness : retriedOnce clicked.
Proof.
  apply (cursor_setup_retries_once defaults clicked).
  unfold clicked, hovering, onFloor. repeat apply reachable_step. apply reachable_init.
Defined.


Lemma navigation_events_are_balanced_witness : eventsBalanced clicked.
Proof.
  apply (navigation_events_are_balanced defaults clicked).
  unfold clicked, hovering, onFloor. repeat apply reachable_step. apply reachable_init.
Defined.

Lemma pinch_lands_where_cursor_rejects_witness :
  (getTeleportPositionFromCursor defaults rampOnly onRamp).1 = None
  /\ p_getTeleportPosition handOverRamp pinching = Some (point rampHit).
Proof.
  apply (pinch_lands_where_cursor_rejects defaults rampOnly onRamp handOverRamp
           pinching downRay rampHit).
  - apply reachable_init.
  - vm_compute. reflexivity.
  - vm_compute. reflexivity.
  - vm_compute. reflexivity.
  - vm_compute. reflexivity.
  - split; vm_compute; reflexivity.
  - vm_compute. reflexivity.
Defined.

Lemma latest_pinch_animation_wins_witness :
  rigPosition (animationFrame handOverRamp jumping)
  = rigPosition (animate secondJump (performance_now handOverRamp (length [firstJump])) jumping).
Proof.
  apply (latest_pinch_animation_wins handOverRamp jumping [firstJump] secondJump).
  reflexivity.
Defined.

Lemma pinch_release_teleports_witness :
  shown (teleportRing (onPinchEnded pinchDefaults handOverRamp aiming)) = false
  /\ position (teleportRing (onPinchEnded pinchDefaults handOverRamp aiming))
     = position (teleportRing aiming)
  /\ animations (onPinchEnded pinchDefaults handOverRamp aiming)
     = animations aiming
       ++ [mkAnimation (performance_now handOverRamp 0) (rigPosition aiming)
                       (position (teleportRing aiming))]
  /\ rigPosition (onPinchEnded pinchDefaults handOverRamp aiming)
     = lerpVectors (rigPosition aiming) (position (teleportRing aiming))
         (easeInOutQuad ((performance_now handOverRamp 1 - performance_now handOverRamp 0) / 500)).
Proof.
  apply (pinch_release_teleports pinchDefaults handOverRamp aiming).
  - vm_compute. reflexivity.
  - reflexivity.
  - vm_compute. reflexivity.
Defined.

Lemma pinch_ring_marks_a_target_witness :
  shown (teleportRing aiming) = true
  /\ p_getTeleportPosition handOverRamp (p_tick pinchDefaults handOverRamp aiming)
     = Some (position (teleportRing (p_tick pinchDefaults handOverRamp aiming))).
Proof.
  apply (pinch_ring_marks_a_target pinchDefaults handOverRamp aiming).
  vm_compute. reflexivity.
Defined.

Lemma go_to_rotation_follows_easing_witness :
  (g_now (goToEnv 1500) - rotationStartTime turning < rotationDuration turning ->
     exists e,
       e == easeInOutQuad ((g_now (goToEnv 1500) - rotationStartTime turning)
                           / rotationDuration turning)
       /\ g_rigQuaternion (g_tick nonFiniteStandIn (goToEnv 1500) turning)
          = slerpQuaternions (g_transitionRotStart turning)
                             (g_transitionRotEnd turning) e
       /\ animatingRotation (g_tick nonFiniteStandIn (goToEnv 1500) turning) = true)
  /\ (rotationDuration turning <= g_now (goToEnv 1500) - rotationStartTime turning ->
     g_rigQuaternion (g_tick nonFiniteStandIn (goToEnv 1500) turning)
     = g_transitionRotEnd turning
     /\ animatingRotation (g_tick nonFiniteStandIn (goToEnv 1500) turning) = false).
Proof.
  apply (go_to_rotation_follows_easing nonFiniteStandIn (goToEnv 1500) turning).
  - reflexivity.
  - vm_compute. reflexivity.
Defined.

Lemma go_to_rotation_ends_on_target_witness :
  (g_now (goToEnv 1000) + g_duration quarterTurn <= g_now (goToEnv 3000) ->
     g_rigQuaternion (g_tick nonFiniteStandIn (goToEnv 3000) turning)
     = eulerStandIn (g_rotation quarterTurn)
     /\ animatingRotation (g_tick nonFiniteStandIn (goToEnv 3000) turning) = false)
  /\ g_rigQuaternion
       (g_step eulerStandIn nonFiniteStandIn quarterTurn AnimationComplete
               (goToEnv 3000) turning)
     = eulerStandIn (g_rotation quarterTurn)
  /\ animatingRotation
       (g_step eulerStandIn nonFiniteStandIn quarterTurn AnimationComplete
               (goToEnv 3000) turning)
     = false.
Proof.
  apply (go_to_rotation_ends_on_target eulerStandIn nonFiniteStandIn quarterTurn
           (goToEnv 1000) (goToEnv 3000) (g_init quarterTurn identity)).
  - vm_compute. reflexivity.
  - vm_compute. reflexivity.
Defined.

Lemma go_to_small_rotation_is_ignored_witness :
  g_rigQuaternion
    (g_run eulerStandIn nonFiniteStandIn straight goToRun (g_init straight identity))
  = identity
  /\ animatingRotation
       (g_run eulerStandIn nonFiniteStandIn straight goToRun (g_init straight identity))
     = false.
Proof.
  apply (go_to_small_rotation_is_ignored eulerStandIn nonFiniteStandIn straight
           goToRun identity);
    vm_compute; discriminate.
Defined.

End MoreWitnesses.
